(** * Bulk import pipeline of the company registry

    A shallow embedding of the three import scripts
    - [scripts/import-simple.py]     (Parquet -> batched upsert),
    - [scripts/parquet-to-csv.py]    (Parquet -> CSV with [\N] for absent cells),
    - [scripts/import-csv-direct.py] (CSV -> one COPY transfer),
    followed by the properties of the pipeline that the specification states. *)

From Stdlib Require Import ZArith Ascii String.
From stdpp Require Import gmap strings list fin_maps pretty.

Local Open Scope string_scope.
Local Open Scope list_scope.
Local Open Scope nat_scope.

(* ===================================================================== *)
(** ** Cell values *)
(* ===================================================================== *)

(** What a cell of the pandas frame can hold: Python [None], the float NaN,
    a [str], a [bool], an [int], and a float other than NaN, which is held by
    the text that Python prints for it (the scripts never compute with it;
    an integer column with a null is a float column in pandas). *)
Inductive value : Type :=
  | VNone
  | VNaN
  | VStr (s : string)
  | VBool (b : bool)
  | VInt (z : Z)
  | VFloat (repr : string).

#[global] Instance value_eq_dec : EqDecision value.
Proof. solve_decision. Defined.

(** [v is not None] *)
Definition is_not_none (v : value) : bool :=
  match v with VNone => false | _ => true end.

(** [v == v]: false for NaN only. *)
Definition eq_self (v : value) : bool :=
  match v with VNaN => false | _ => true end.

(** pandas [isna]: the native absent values. *)
Definition isna (v : value) : bool :=
  match v with VNone | VNaN => true | _ => false end.

(* ===================================================================== *)
(** ** Strings: [str.lower] and [str.split] *)
(* ===================================================================== *)

Module Str.

(** [str.lower] on the ASCII range: [A]..[Z] are shifted to [a]..[z].  A
    string is a sequence of bytes here, and the letters outside ASCII, which
    Python lower-cases too, are left as they are: the labels of the frames
    are taken to be ASCII. *)
Definition lower_ascii (c : ascii) : ascii :=
  let n := nat_of_ascii c in
  if (65 <=? n) && (n <=? 90) then ascii_of_nat (n + 32) else c.

Fixpoint lower (s : string) : string :=
  match s with
  | EmptyString => EmptyString
  | String c s' => String (lower_ascii c) (lower s')
  end.

(** [s.split(sep)] for a one-character separator: the pieces between the
    occurrences of [sep]; the result always has at least one piece. *)
Fixpoint split (sep : ascii) (s : string) : list string :=
  match s with
  | EmptyString => [EmptyString]
  | String c s' =>
      if decide (c = sep) then EmptyString :: split sep s'
      else match split sep s' with
           | piece :: pieces => String c piece :: pieces
           | [] => [String c EmptyString]
           end
  end.

(** [c in s] *)
Fixpoint contains (c : ascii) (s : string) : bool :=
  match s with
  | EmptyString => false
  | String c' s' => if decide (c' = c) then true else contains c s'
  end.

End Str.

(** The delimiter that separates the name from its suffix. *)
Definition DELIM : ascii := "$"%char.

(* ===================================================================== *)
(** ** Data frames *)
(* ===================================================================== *)

(** A frame: the column labels and the rows, each row holding one cell per
    column in column order. *)
Record DataFrame : Type := mkDF {
  columns : list string;
  data : list (list value)
}.

(** [len(df)] *)
Definition df_len (df : DataFrame) : nat := length (data df).

Module Pandas.

(** [df.columns = df.columns.str.lower()] *)
Definition lower_columns (df : DataFrame) : DataFrame :=
  mkDF (Str.lower <$> columns df) (data df).

(** Cells of [row] whose column label satisfies [keep]. *)
Fixpoint select (keep : string → bool) (cols : list string) (row : list value)
  : list value :=
  match cols, row with
  | c :: cols', v :: row' =>
      if keep c then v :: select keep cols' row' else select keep cols' row'
  | _, _ => []
  end.

(** [df.drop(columns=[label])] *)
Definition drop_columns (label : string) (df : DataFrame) : DataFrame :=
  let keep c := bool_decide (c ≠ label) in
  mkDF (filter (λ c, c ≠ label) (columns df))
       (select keep (columns df) <$> data df).

(** [df.replace({np.nan: None})] *)
Definition replace_nan_none (df : DataFrame) : DataFrame :=
  mkDF (columns df)
       ((λ row : list value, (λ v, if isna v then VNone else v) <$> row) <$> data df).

(** One element of [series.str.split(sep).str[0]], once the accessor has
    accepted the column ([str_raises] below): a string gives its first piece;
    an absent element stays as it is.  Any other element gives NaN, which is
    what pandas does inside a column of mixed objects; a column read from a
    Parquet file is typed and never gets here with such an element. *)
Definition str_split_first (sep : ascii) (v : value) : value :=
  match v with
  | VStr s => match Str.split sep s with
              | piece :: _ => VStr piece
              | [] => VNaN
              end
  | VNone => VNone
  | _ => VNaN
  end.

(** Apply [f] to the cells of [row] under the column [label]. *)
Fixpoint map_at (label : string) (f : value → value)
    (cols : list string) (row : list value) : list value :=
  match cols, row with
  | c :: cols', v :: row' =>
      (if decide (c = label) then f v else v) :: map_at label f cols' row'
  | _, _ => row
  end.

(** [df[label] = df[label].str.split(sep).str[0]], when it does not raise
    ([str_raises] below): the label then occurs once. *)
Definition assign_split_first (label : string) (sep : ascii) (df : DataFrame)
  : DataFrame :=
  mkDF (columns df)
       (map_at label (str_split_first sep) (columns df) <$> data df).

(** [row.to_dict()]: a later column wins when a label occurs twice. *)
Definition to_dict (cols : list string) (row : list value) : gmap string value :=
  foldl (λ d kv, <[kv.1 := kv.2]> d) ∅ (zip cols row).

(** [df.iloc[lo:hi]] *)
Definition iloc {A} (rows : list A) (lo hi : nat) : list A :=
  take (hi - lo) (drop lo rows).

Definition is_str (v : value) : bool :=
  match v with VStr _ => true | _ => false end.

(** The cells under the label [label], row after row. *)
Definition cells_of (label : string) (df : DataFrame) : list value :=
  concat (select (λ c, bool_decide (c = label)) (columns df) <$> data df).

(** [df[label].str] raises [AttributeError]: when the label occurs more than
    once, [df[label]] is a frame, which has no [str]; and the accessor of a
    column refuses a column that is not a column of strings, that is, one
    with a cell that is neither a string nor absent. *)
Definition str_raises (label : string) (df : DataFrame) : bool :=
  negb (bool_decide (length (filter (λ c, c = label) (columns df)) = 1))
  || negb (forallb (λ v, is_str v || isna v) (cells_of label df)).

(** A column with rows and without any string.  A frame carries no column
    types here: the type of a column is read off its cells, and a column
    whose cells are all absent is taken to come from the file without a
    string type, as a column written without any value does. *)
Definition null_column (label : string) (df : DataFrame) : bool :=
  negb (bool_decide (cells_of label df = []))
  && forallb isna (cells_of label df).

End Pandas.

(** [range(start, stop, step)] for a positive step; [fuel] bounds the number
    of iterations. *)
Fixpoint range_loop (fuel i stop step : nat) : list nat :=
  match fuel with
  | 0 => []
  | S fuel' =>
      if decide (i < stop) then i :: range_loop fuel' (i + step) stop step else []
  end.

(** [range(0, stop, step)] raises [ValueError] when [step] is zero. *)
Definition py_range (stop step : nat) : option (list nat) :=
  if decide (step = 0) then None else Some (range_loop stop 0 stop step).

(* ===================================================================== *)
(** ** The sink: table [companies] *)
(* ===================================================================== *)

(** A record sent to the sink, and a stored row: field name to value.  A
    field that is not in the map has no value (SQL null in a stored row). *)
Abbreviation record := (gmap string value).

(** The table: its rows in insertion order. *)
Abbreviation table := (list (gmap string value)).

Module Sink.

(** Modelled from the spec: the natural key of a record or of a stored row,
    its value under the conflict column (section 6); the table and its
    conflict resolution live in the sink, outside the sources. *)
Definition key_of (on_conflict : string) (r : record) : option value :=
  r !! on_conflict.

(** Modelled from the spec: what an update makes of a stored row (section
    4.4, "update the existing row").  The fields of the record are written.
    The spec does not say what becomes of the fields that the record does not
    name: [keeps_unnamed] tells whether the sink keeps them or replaces the
    row by the record. *)
Definition update (keeps_unnamed : bool) (r row : record) : record :=
  if keeps_unnamed then r ∪ row else r.

(** Modelled from the spec: what the sink does with one record (section
    4.4): insert [r], or update the existing row that shares the natural-key
    value [k]. *)
Fixpoint upsert_row (on_conflict : string) (keeps_unnamed : bool)
    (k : value) (r : record) (t : table) : table :=
  match t with
  | [] => [r]
  | row :: t' =>
      if decide (key_of on_conflict row = Some k)
      then update keeps_unnamed r row :: t'
      else row :: upsert_row on_conflict keeps_unnamed k r t'
  end.

(** Modelled from the spec: the same, with the key value read from the
    record; a record without key value is left to [upsert], which rejects
    it. *)
Definition upsert_record (on_conflict : string) (keeps_unnamed : bool)
    (t : table) (r : record) : table :=
  match key_of on_conflict r with
  | Some k => upsert_row on_conflict keeps_unnamed k r t
  | None => t
  end.

(** Modelled from the spec: the sink's insert-or-update call, which belongs
    to the Supabase client and is not part of the sources.  Section 4.4 and
    section 6: the call takes a collection of field mappings and a conflict
    key; it inserts each record or updates the existing row sharing the
    same natural-key value; the batch is accepted whole or rejected as a
    unit, and a rejected batch has no effect on the sink.  Section 3: the
    natural key is non-null, so a record without it is rejected.  [None] is
    the rejection (the client raises). *)
Definition upsert (on_conflict : string) (keeps_unnamed : bool)
    (records : list record) (t : table) : option table :=
  if forallb (λ r, bool_decide (is_Some (key_of on_conflict r))) records
  then Some (foldl (upsert_record on_conflict keeps_unnamed) t records)
  else None.

End Sink.

(* ===================================================================== *)
(** ** [scripts/import-simple.py] *)
(* ===================================================================== *)

Module ImportSimple.

Definition INDEX_COLUMN : string := "__index_level_0__".
Definition NAME_COLUMN : string := "organisationsnamn".
Definition ON_CONFLICT : string := "organisationsidentitet".
Definition BATCH_SIZE : nat := 500.

(** What the script prints that carries a number. *)
Inductive line : Type :=
  | PLoaded (total_rows : nat)
  | PBatch (batch_num total_batches n_records : nat)
  | POk (imported total_rows : nat)
  | PError
  | PImported (imported : nat)
  | PErrors (errors : nat).

(** The environment of one run: whether [create_client] returns, what
    [pq.read_table] returns ([None]: it raises), the table before the run,
    which calls of the record API raise for a reason of their own (network,
    serialization, a constraint), by call number and payload, and whether
    the sink keeps the fields that an update does not name. *)
Record World : Type := mkWorld {
  client_ok : bool;
  parquet : option DataFrame;
  companies : table;
  api_raises : nat → list record → bool;
  sink_keeps_unnamed : bool
}.

Record State : Type := mkState {
  sink : table;
  imported : nat;
  errors : nat;
  calls : list (list record);
  stdout : list line
}.

Record Result : Type := mkResult {
  exit_code : nat;
  final : State
}.

(** Lines 33-35 *)
Definition clean_columns (df : DataFrame) : DataFrame :=
  let df := Pandas.lower_columns df in
  if decide (INDEX_COLUMN ∈ columns df) then Pandas.drop_columns INDEX_COLUMN df
  else df.

(** Lines 42-46, when line 46 does not raise. *)
Definition clean_values (df : DataFrame) : DataFrame :=
  let df := Pandas.replace_nan_none df in
  if decide (NAME_COLUMN ∈ columns df)
  then Pandas.assign_split_first NAME_COLUMN DELIM df
  else df.

(** Line 46 raises [AttributeError]: there is a name column and its [str]
    accessor raises.  The frame is the one that line 42 left, in which an
    absent cell is None and a column of absent cells is a column of
    objects, which the accessor accepts. *)
Definition name_raises (df : DataFrame) : bool :=
  bool_decide (NAME_COLUMN ∈ columns df) && Pandas.str_raises NAME_COLUMN df.

(** Lines 42-46; [None]: line 46 raises. *)
Definition try_clean_values (df : DataFrame) : option DataFrame :=
  if name_raises (Pandas.replace_nan_none df) then None else Some (clean_values df).

(** The test of line 63. *)
Definition kept (v : value) : bool := is_not_none v && eq_self v.

(** Lines 60-64: the fields of the row that are not None and equal to
    themselves. *)
Definition build_record (d : gmap string value) : record :=
  map_fold (λ k v (rec : record), if kept v then <[k := v]> rec else rec) ∅ d.

(** Lines 58-66 *)
Definition build_records (cols : list string) (batch : list (list value))
  : list record :=
  foldl (λ records row,
           let rec := build_record (Pandas.to_dict cols row) in
           if bool_decide (rec ≠ ∅) then records ++ [rec] else records)
        [] batch.

(** The call of line 72: the [n]-th call of the run. *)
Definition api_upsert (w : World) (n : nat) (records : list record) (t : table)
  : option table :=
  if api_raises w n records then None
  else Sink.upsert ON_CONFLICT (sink_keeps_unnamed w) records t.

(** Lines 55-66: the records of the slice that starts at row [i]. *)
Definition payload (batch_size : nat) (df : DataFrame) (i : nat) : list record :=
  build_records (columns df) (Pandas.iloc (data df) i (i + batch_size)).

(** Lines 54-83: one iteration of the loop. *)
Definition step (w : World) (batch_size total_rows total_batches : nat)
    (df : DataFrame) (st : State) (i : nat) : State :=
  let batch_num := i / batch_size + 1 in
  let records := payload batch_size df i in
  let out := stdout st ++ [PBatch batch_num total_batches (length records)] in
  match api_upsert w (length (calls st)) records (sink st) with
  | Some t' =>
      let imported' := imported st + length records in
      mkState t' imported' (errors st) (calls st ++ [records])
              (out ++ [POk imported' total_rows])
  | None =>
      mkState (sink st) (imported st) (errors st + 1) (calls st ++ [records])
              (out ++ [PError])
  end.

(** An exception that nothing catches ends the process with status 1. *)
Definition uncaught (st : State) : Result := mkResult 1 st.

(** [main], with the module constant [BATCH_SIZE] as a parameter. *)
Definition main_with (batch_size : nat) (w : World) : Result :=
  let st0 := mkState (companies w) 0 0 [] [] in
  if negb (client_ok w) then uncaught st0 else
  match parquet w with
  | None => uncaught st0
  | Some df =>
      let df := clean_columns df in
      let total_rows := df_len df in
      let st1 := mkState (companies w) 0 0 [] [PLoaded total_rows] in
      match try_clean_values df with
      | None => uncaught st1               (* line 46 is outside the try *)
      | Some df =>
          if decide (batch_size = 0) then uncaught st1 else
          let total_batches := (total_rows + batch_size - 1) / batch_size in
          match py_range total_rows batch_size with
          | None => uncaught st1
          | Some starts =>
              let st := foldl (step w batch_size total_rows total_batches df) st1 starts in
              mkResult 0 (mkState (sink st) (imported st) (errors st) (calls st)
                            (stdout st ++ [PImported (imported st); PErrors (errors st)]))
          end
      end
  end.

Definition main : World → Result := main_with BATCH_SIZE.

(** The run-end summary, lines 85-89: the last two lines printed. *)
Definition summary (r : Result) : list line :=
  drop (length (stdout (final r)) - 2) (stdout (final r)).

End ImportSimple.

(* ===================================================================== *)
(** ** [scripts/parquet-to-csv.py] *)
(* ===================================================================== *)

Module ParquetToCsv.

Definition INDEX_COLUMN : string := "__index_level_0__".
Definition NAME_COLUMN : string := "organisationsnamn".

(** The text written for absent cells: backslash, capital N. *)
Definition NA_REP : string := "\N".

(** [str(v)] *)
Definition py_str (v : value) : string :=
  match v with
  | VNone => "None"
  | VNaN => "nan"
  | VStr s => s
  | VBool true => "True"
  | VBool false => "False"
  | VInt z => pretty z
  | VFloat repr => repr
  end.

(** The text of one cell in [to_csv], before CSV quoting. *)
Definition csv_cell (na_rep : string) (v : value) : string :=
  if isna v then na_rep else py_str v.

(** [df.to_csv(file, index=False, na_rep=...)]: the header and one line per
    row, each given by the texts of its fields. *)
Definition to_csv (na_rep : string) (df : DataFrame) : list (list string) :=
  columns df :: ((λ row : list value, csv_cell na_rep <$> row) <$> data df).

(** Line 20 raises [AttributeError]: there is a name column and its [str]
    accessor raises.  No replacement of NaN comes before it here: the column
    has the type that the reader gave it, and a column without any string is
    refused as well. *)
Definition name_raises (df : DataFrame) : bool :=
  bool_decide (NAME_COLUMN ∈ columns df)
  && (Pandas.str_raises NAME_COLUMN df || Pandas.null_column NAME_COLUMN df).

(** The script: what it writes to the CSV file; [None] when it raises and
    writes nothing (reading the Parquet file raises, or line 20 does). *)
Definition main (parquet : option DataFrame) : option (list (list string)) :=
  df ← parquet;
  let df := Pandas.lower_columns df in
  let df := if decide (INDEX_COLUMN ∈ columns df)
            then Pandas.drop_columns INDEX_COLUMN df else df in
  if name_raises df then None else
  let df := if decide (NAME_COLUMN ∈ columns df)
            then Pandas.assign_split_first NAME_COLUMN DELIM df else df in
  Some (to_csv NA_REP df).

End ParquetToCsv.

(* ===================================================================== *)
(** ** [scripts/import-csv-direct.py] *)
(* ===================================================================== *)

Module ImportCsvDirect.

(** The environment of one run: whether [psycopg2.connect] returns, the
    lines of the CSV file ([None]: [open] raises), the committed rows of the
    table before the run, and the constraints of the table: whether a line
    is refused given the rows that the transaction sees. *)
Record World : Type := mkWorld {
  connect_ok : bool;
  csv_file : option (list string);
  companies : list string;
  violates : list string → string → bool
}.

Inductive line : Type :=
  | PCount (count : nat)
  | PError.

Record Result : Type := mkResult {
  exit_code : nat;
  committed : list string;
  copied : list (list string);
  stdout : list line
}.

(** Modelled from the spec: the server side of the streaming copy, which is
    not part of the sources.  Section 4.3 and section 6: the rows arrive as
    newline-delimited lines and are inserted in order inside the open
    transaction; the first line that violates a constraint makes the call
    raise.  The result is what the transaction sees afterwards and whether
    the call returned. *)
Fixpoint copy_from (violates : list string → string → bool)
    (lines : list string) (working : list string) : list string * bool :=
  match lines with
  | [] => (working, true)
  | l :: lines' =>
      if violates working l then (working, false)
      else copy_from violates lines' (working ++ [l])
  end.

(** Lines 25-81.  A transaction that is not committed when the process
    exits is rolled back: the table keeps its committed rows. *)
Definition main (w : World) : Result :=
  let failed streams := mkResult 1 (companies w) streams [PError] in
  if negb (connect_ok w) then failed [] else
  match csv_file w with
  | None => failed []
  | Some lines =>
      match lines with
      | [] => failed []                       (* next(f): StopIteration *)
      | _ :: rest =>
          match copy_from (violates w) rest (companies w) with
          | (_, false) => failed [rest]
          | (working, true) =>
              (* conn.commit(); SELECT COUNT( * ) *)
              mkResult 0 working [rest] [PCount (length working)]
          end
      end
  end.

End ImportCsvDirect.

(* ===================================================================== *)
(** ** Derived notions used in the statements *)
(* ===================================================================== *)

(** The slices that the loop of [import-simple.py] takes from the rows. *)
Definition batches {A} (batch_size : nat) (rows : list A) : list (list A) :=
  (λ i, Pandas.iloc rows i (i + batch_size))
    <$> range_loop (length rows) 0 (length rows) batch_size.

Section Accounting.
Import ImportSimple.
Variable w : World.

(** The [n]-th call raises. *)
Definition rejected (n : nat) (records : list record) : bool :=
  api_raises w n records
  || negb (forallb (λ r, bool_decide (is_Some (Sink.key_of ON_CONFLICT r))) records).

(** Records of the calls that returned, in order; [n] numbers the first. *)
Fixpoint accepted (n : nat) (cs : list (list record)) : list record :=
  match cs with
  | [] => []
  | c :: cs' => (if rejected n c then [] else c) ++ accepted (S n) cs'
  end.

(** Number of calls that raised. *)
Fixpoint failures (n : nat) (cs : list (list record)) : nat :=
  match cs with
  | [] => 0
  | c :: cs' => (if rejected n c then 1 else 0) + failures (S n) cs'
  end.

End Accounting.

Section SinkNotions.
Variable on_conflict : string.

(** Rows stored under the key value [k]. *)
Definition rows_with (k : value) (t : table) : table :=
  filter (λ row, Sink.key_of on_conflict row = Some k) t.

(** What the records with key [k] make of the stored row [row]. *)
Definition absorb (keeps_unnamed : bool) (k : value) (rs : list record)
    (row : record) : record :=
  foldl (λ (row : record) (r : record),
           if decide (Sink.key_of on_conflict r = Some k)
           then Sink.update keeps_unnamed r row else row)
        row rs.

(** The records with another key than [k]. *)
Definition others (k : value) (rs : list record) : list record :=
  filter (λ r, Sink.key_of on_conflict r ≠ Some k) rs.

End SinkNotions.

(** What lines 42-46 of [import-simple.py] do to the entries of one row. *)
Definition normalize_dict (d : gmap string value) : gmap string value :=
  alter (Pandas.str_split_first DELIM) ImportSimple.NAME_COLUMN
        ((λ v, if isna v then VNone else v) <$> d).

(** The record that [import-simple.py] builds from one row of the frame it
    has after line 35. *)
Definition record_of (cols : list string) (row : list value) : record :=
  ImportSimple.build_record (normalize_dict (Pandas.to_dict cols row)).

(** The records that one call carries for the slice [b] of those rows. *)
Definition sent (cols : list string) (b : list (list value)) : list record :=
  filter (λ r : record, r ≠ ∅) (record_of cols <$> b).

(** What lines 42-46 do to one row. *)
Definition clean_row (cols : list string) (row : list value) : list value :=
  let row := (λ v, if isna v then VNone else v) <$> row in
  if decide (ImportSimple.NAME_COLUMN ∈ cols)
  then Pandas.map_at ImportSimple.NAME_COLUMN (Pandas.str_split_first DELIM) cols row
  else row.

(** The rows that give no record. *)
Definition skipped (cols : list string) (rows : list (list value)) : list (list value) :=
  filter (λ row, record_of cols row = ∅) rows.

(** The same run on the table that a first run left. *)
Definition rerun (w : ImportSimple.World) (t : table) : ImportSimple.World :=
  ImportSimple.mkWorld (ImportSimple.client_ok w) (ImportSimple.parquet w) t
                       (ImportSimple.api_raises w) (ImportSimple.sink_keeps_unnamed w).

(* ===================================================================== *)
(** ** The extraction scripts *)
(* ===================================================================== *)

(** The two scripts read an XHTML file and print what a few regular
    expressions find in it.  What [re.findall] and [re.search] return is an
    input here, and so is [str.strip]: the scripts are modelled from the
    match lists on. *)

Module ExtractFinancials.

Inductive line : Type :=
  | PValue (namn value : string)
  | PMissing (namn : string).

(** The key figures and their patterns, in the order of the dictionary. *)
Definition nyckeltal : list (string * string) :=
  [("Nettoomsattning", "se-gen-base:Nettoomsattning[^>]*>([^<]+)");
   ("Rorelseresultat", "se-gen-base:Rorelseresultat[^>]*>([^<]+)");
   ("AretsResultat", "se-gen-base:AretsResultat[^>]*>([^<]+)");
   ("Tillgangar", "se-gen-base:Tillgangar[^>]*>([^<]+)");
   ("EgetKapital", "se-gen-base:EgetKapital[^>]*>([^<]+)");
   ("Soliditet", "se-gen-base:Soliditet[^>]*>([^<]+)");
   ("MedelantaltAnstallda", "se-gen-base:MedelantalAnstallda[^>]*>([^<]+)")].

(** [value and value != '&#8211;' and value != '-'] *)
Definition usable (value : string) : bool :=
  bool_decide (value ≠ "") && bool_decide (value ≠ "&#8211;") && bool_decide (value ≠ "-").

Section Script.
Variable strip : string → string.
Variable findall : string → list string.

(** The inner loop: the first match whose stripped text is usable. *)
Fixpoint first_value (matches : list string) : option string :=
  match matches with
  | [] => None
  | m :: matches' =>
      let value := strip m in
      if usable value then Some value else first_value matches'
  end.

(** The body of the outer loop for one key figure. *)
Definition report (namn : string) (matches : list string) : list line :=
  match matches with
  | [] => [PMissing namn]
  | _ :: _ =>
      match first_value matches with
      | Some value => [PValue namn value]
      | None => []
      end
  end.

(** The script: the lines it prints about the key figures, in the order of
    the dictionary. *)
Definition main : list line :=
  concat ((λ kv : string * string, report kv.1 (findall kv.2)) <$> nyckeltal).

End Script.

End ExtractFinancials.

Module ExtractBoard.

Inductive line : Type :=
  | PHeading
  | PPerson (number : nat) (fornamn efternamn : string)
  | PRole (roll : string)
  | PBlank
  | PDate (datum : string)
  | PPlace (ort : string).

Section Script.
Variable strip : string → string.
Variables fornamn efternamn roller : list string.

(** The body of the loop; [None]: an index is out of range (IndexError). *)
Definition person (i : nat) : option (list line) :=
  f ← fornamn !! i;
  e ← efternamn !! i;
  r ← roller !! i;
  Some [PPerson (i + 1) (strip f) (strip e); PRole (strip r); PBlank].

(** The script; [datum] and [ort] are the groups of the two searches, when
    they match. *)
Definition main (datum ort : option string) : option (list line) :=
  let n := length fornamn `min` (length efternamn `min` length roller) in
  persons ← mapM person (seq 0 n);
  Some (PHeading :: concat persons
          ++ (match datum with Some d => [PDate (strip d)] | None => [] end)
          ++ (match ort with Some o => [PPlace (strip o)] | None => [] end)).

End Script.

End ExtractBoard.

(* ===================================================================== *)
(** ** Further notions: strings, transcript *)
(* ===================================================================== *)

(** [sep.join(pieces)] for a one-character separator. *)
Fixpoint str_join (sep : ascii) (pieces : list string) : string :=
  match pieces with
  | [] => EmptyString
  | [piece] => piece
  | piece :: pieces' => (piece ++ String sep (str_join sep pieces'))%string
  end.

(** [s.count(c)] *)
Fixpoint str_count (c : ascii) (s : string) : nat :=
  match s with
  | EmptyString => 0
  | String c' s' => (if decide (c' = c) then 1 else 0) + str_count c s'
  end.

(** The numbers of the lines [Batch n/m: Importing k rows] of a transcript:
    batch number, number of batches, number of records. *)
Definition batch_lines (out : list ImportSimple.line) : list (nat * nat * nat) :=
  omap (λ l, match l with
             | ImportSimple.PBatch n m k => Some (n, m, k)
             | _ => None
             end) out.

(* ===================================================================== *)
(** ** Worlds in which a run cannot start *)
(* ===================================================================== *)

Module FailureSamples.


End FailureSamples.

(* ===================================================================== *)
(** ** Sample inputs *)
(* ===================================================================== *)

Module Samples.
Import ImportSimple.

(** A world whose record API never raises on its own and whose table is
    empty. *)
Definition world (df : DataFrame) : World :=
  mkWorld true (Some df) [] (λ _ _, false) true.

(** One company whose address is the empty string and whose description is
    the two characters backslash, N. *)
Definition df_strings : DataFrame :=
  mkDF ["organisationsidentitet"; "postadress"; "verksamhetsbeskrivning"; "avregistreringsdatum"]
       [[VStr "5560000001"; VStr ""; VStr "\N"; VNaN]].

(** One company with a suffixed name. *)
Definition df_acme : DataFrame :=
  mkDF ["Organisationsidentitet"; "Organisationsnamn"; "__index_level_0__"]
       [[VStr "5560000001"; VStr "Acme AB$1"; VInt 0]].

(** One row whose cells are all absent. *)
Definition df_empty_row : DataFrame :=
  mkDF ["organisationsidentitet"; "organisationsnamn"] [[VNaN; VNone]].

(** Three companies. *)
Definition df_three : DataFrame :=
  mkDF ["organisationsidentitet"; "organisationsnamn"]
       [[VStr "1"; VStr "A AB"]; [VStr "2"; VStr "B AB"]; [VStr "3"; VNaN]].

(** One company, and the same company followed by an all-absent row. *)
Definition df_one : DataFrame :=
  mkDF ["organisationsidentitet"] [[VStr "1"]].
Definition df_one_and_empty : DataFrame :=
  mkDF ["organisationsidentitet"] [[VStr "1"]; [VNaN]].

(** Five companies, one per batch, where the third call raises. *)
Definition df_five : DataFrame :=
  mkDF ["organisationsidentitet"]
       [[VStr "1"]; [VStr "2"]; [VStr "3"]; [VStr "4"]; [VStr "5"]].
Definition world_third_fails : World :=
  mkWorld true (Some df_five) [] (λ n _, bool_decide (n = 2)) true.

(** A company without address in the file and with an address in the table,
    for a sink that keeps the fields that an update does not name and for
    one that does not. *)
Definition df_no_address : DataFrame :=
  mkDF ["organisationsidentitet"; "postadress"] [[VStr "1"; VNaN]].
Definition world_stored (keeps_unnamed : bool) : World :=
  mkWorld true (Some df_no_address)
    [ {[ "organisationsidentitet" := VStr "1"; "postadress" := VStr "Storgatan 1" ]} ]
    (λ _ _, false) keeps_unnamed.

(** The same company twice, the second time under a new name and without
    address. *)
Definition df_twice : DataFrame :=
  mkDF ["organisationsidentitet"; "organisationsnamn"; "postadress"]
       [[VStr "1"; VStr "Old AB"; VStr "Storgatan 1"];
        [VStr "1"; VStr "New AB"; VNaN]].

End Samples.

Module CsvSamples.
Import ImportCsvDirect.

(** A table that refuses a line equal to a row it already sees. *)
Definition unique (seen : list string) (l : string) : bool := bool_decide (l ∈ seen).

(** A header and four rows, the last of which repeats the second. *)
Definition world_duplicate : World :=
  mkWorld true (Some ["id,name"; "1,A AB"; "2,B AB"; "3,C AB"; "2,B AB"]) ["0,Z AB"] unique.

(** A file without header, into a table without constraints. *)
Definition world_no_header : World :=
  mkWorld true (Some ["1,A AB"; "2,B AB"]) [] (λ _ _, false).

(** A header and the rows ["1"] to ["1000"], into a table that refuses
    ["900"]. *)
Definition world_row_900 : World :=
  mkWorld true (Some ("id" :: (pretty <$> seq 1 1000))) ["0"]
          (λ _ l, bool_decide (l = "900")).

End CsvSamples.

(* ===================================================================== *)
(** ** Facts about the string operations *)
(* ===================================================================== *)

Section StrFacts.
Variable sep : ascii.

Lemma split_nonempty (s : string) : Str.split sep s ≠ [].
Proof.
  destruct s as [|c s]; simpl; [done|].
  case_decide; [done|]. by destruct (Str.split sep s).
Qed.

(** The first piece has no separator, and what follows it in [s] is either
    nothing or the separator and the remaining pieces. *)
Lemma split_head (s : string) :
  ∃ piece pieces,
    Str.split sep s = piece :: pieces ∧
    Str.contains sep piece = false ∧
    (Str.contains sep s = false → piece = s ∧ pieces = []) ∧
    (Str.contains sep s = true → ∃ rest, s = (piece ++ String sep rest)%string).
Proof.
  induction s as [|c s (piece & pieces & Hs & Hp & Hno & Hyes)]; simpl.
  - exists EmptyString, []. by repeat (split; [done|]).
  - case_decide as Hc.
    + subst c. exists EmptyString, (Str.split sep s).
      repeat (split; [done|]). intros _. by exists s.
    + rewrite Hs. exists (String c piece), pieces. simpl.
      rewrite !decide_False by done.
      split; [done|]. split; [done|]. split.
      * intros Hn. by destruct (Hno Hn) as [-> ->].
      * intros Hy. destruct (Hyes Hy) as [rest ->]. by exists rest.
Qed.

End StrFacts.

Example split_acme : Str.split DELIM "Acme AB$1" = ["Acme AB"; "1"].
Proof. reflexivity. Qed.

Example range_1201 : py_range 1201 500 = Some [0; 500; 1000].
Proof. vm_compute. reflexivity. Qed.

(* ===================================================================== *)
(** ** Facts about rows and records *)
(* ===================================================================== *)

Section RecordFacts.
Import ImportSimple.

Lemma kept_isna (v : value) : kept v = negb (isna v).
Proof. by destruct v. Qed.

Lemma build_record_lookup (d : gmap string value) (k : string) :
  build_record d !! k = v ← d !! k; if kept v then Some v else None.
Proof.
  unfold build_record. revert k.
  apply (map_fold_weak_ind (λ (r : record) (m : gmap string value),
    ∀ k, r !! k = v ← m !! k; if kept v then Some v else None)).
  - intros k. by rewrite !lookup_empty.
  - intros i x m r Hm IH k.
    destruct (decide (k = i)) as [->|Hne].
    + rewrite lookup_insert_eq. simpl.
      destruct (kept x); [by rewrite lookup_insert_eq|].
      by rewrite IH, Hm.
    + rewrite (lookup_insert_ne m) by done.
      destruct (kept x); [rewrite lookup_insert_ne by done|]; apply IH.
Qed.

Lemma build_record_Some (d : gmap string value) (k : string) (v : value) :
  build_record d !! k = Some v ↔ d !! k = Some v ∧ isna v = false.
Proof.
  rewrite build_record_lookup. destruct (d !! k) as [x|]; simpl.
  - rewrite kept_isna. destruct (isna x) eqn:E; simpl; split.
    + done.
    + intros [[= ->] ?]. congruence.
    + intros [= ->]. done.
    + by intros [[= ->] _].
  - split; [done | by intros [? _]].
Qed.

Lemma build_record_empty (d : gmap string value) :
  build_record d = ∅ ↔ ∀ k v, d !! k = Some v → isna v = true.
Proof.
  split.
  - intros He k v Hk. destruct (isna v) eqn:E; [done|].
    assert (build_record d !! k = Some v) as H by by apply build_record_Some.
    by rewrite He, lookup_empty in H.
  - intros Hall. apply map_eq. intros k. rewrite lookup_empty.
    destruct (build_record d !! k) as [v|] eqn:E; [|done].
    apply build_record_Some in E as [Hk Hv]. apply Hall in Hk. congruence.
Qed.

Lemma record_nonempty (r : record) (k : string) :
is_Some (r !! k) → r ≠ ∅.
Proof. intros [v Hv] ->. by rewrite lookup_empty in Hv. Qed.

Lemma build_records_filter (cols : list string) (batch : list (list value)) :
  build_records cols batch =
  filter (λ r : record, r ≠ ∅) ((λ row, build_record (Pandas.to_dict cols row)) <$> batch).
Proof.
  unfold build_records.
  enough (∀ acc : list record,
    foldl (λ records row,
             let rec := build_record (Pandas.to_dict cols row) in
             if bool_decide (rec ≠ ∅) then records ++ [rec] else records) acc batch
    = acc ++ filter (λ r : record, r ≠ ∅)
               ((λ row, build_record (Pandas.to_dict cols row)) <$> batch)) as H
    by apply (H []).
  induction batch as [|row batch IH]; intros acc; simpl.
  - by rewrite app_nil_r.
  - rewrite IH, filter_cons. case_bool_decide; case_decide; try done.
    by rewrite <- app_assoc.
Qed.

(** Keys of [to_dict] come from the column labels. *)
Lemma to_dict_lookup_None (cols : list string) (row : list value) (k : string) :
  k ∉ cols → Pandas.to_dict cols row !! k = None.
Proof.
  unfold Pandas.to_dict.
  enough (∀ d : gmap string value, k ∉ cols → d !! k = None →
    foldl (λ d kv, <[kv.1 := kv.2]> d) d (zip cols row) !! k = None) as H
    by (intros; by apply H).
  revert row. induction cols as [|c cols IH]; intros row d Hk Hd; [done|].
  destruct row as [|v row]; [done|]. simpl.
  apply not_elem_of_cons in Hk as [Hne Hk].
  apply IH; [done|]. by rewrite lookup_insert_ne.
Qed.

(** Values of [to_dict] are cells of the row. *)
Lemma to_dict_lookup_Some (cols : list string) (row : list value) k v :
  Pandas.to_dict cols row !! k = Some v → v ∈ row.
Proof.
  unfold Pandas.to_dict.
  enough (∀ d : gmap string value,
    foldl (λ d kv, <[kv.1 := kv.2]> d) d (zip cols row) !! k = Some v →
    d !! k = Some v ∨ v ∈ row) as H.
  { intros Hk. apply H in Hk as [Hk|Hk]; [by rewrite lookup_empty in Hk | done]. }
  revert row. induction cols as [|c cols IH]; intros row d Hk; [by left|].
  destruct row as [|x row]; [by left|]. simpl in Hk.
  apply IH in Hk as [Hk|Hk].
  - destruct (decide (c = k)) as [->|Hne].
    + rewrite lookup_insert_eq in Hk. injection Hk as ->. right. by left.
    + rewrite lookup_insert_ne in Hk by done. by left.
  - right. by right.
Qed.

(** Rewriting the cells under one label rewrites the entry of that label. *)
Lemma to_dict_map_at (label : string) (f : value → value)
    (cols : list string) (row : list value) :
  Pandas.to_dict cols (Pandas.map_at label f cols row) =
  alter f label (Pandas.to_dict cols row).
Proof.
  unfold Pandas.to_dict.
  enough (∀ d : gmap string value,
    foldl (λ d kv, <[kv.1 := kv.2]> d) (alter f label d)
          (zip cols (Pandas.map_at label f cols row)) =
    alter f label (foldl (λ d kv, <[kv.1 := kv.2]> d) d (zip cols row))) as H.
  { rewrite <- (H ∅). by rewrite alter_empty. }
  revert row. induction cols as [|c cols IH]; intros row d; [done|].
  destruct row as [|v row]; [done|]. simpl. rewrite <- IH. f_equal.
  case_decide as Hc.
  - subst c. by rewrite alter_insert_eq, insert_alter_eq.
  - by rewrite alter_insert_ne, insert_alter_ne by done.
Qed.

(** Mapping every cell maps every entry. *)
Lemma to_dict_fmap (f : value → value) (cols : list string) (row : list value) :
  Pandas.to_dict cols (f <$> row) = f <$> Pandas.to_dict cols row.
Proof.
  unfold Pandas.to_dict.
  enough (∀ d : gmap string value,
    foldl (λ d kv, <[kv.1 := kv.2]> d) (f <$> d) (zip cols (f <$> row)) =
    f <$> foldl (λ d kv, <[kv.1 := kv.2]> d) d (zip cols row)) as H.
  { rewrite <- H. by rewrite fmap_empty. }
  revert row. induction cols as [|c cols IH]; intros row d; [by destruct row|].
  destruct row as [|v row]; [done|]. simpl. rewrite <- IH. f_equal.
  by rewrite fmap_insert.
Qed.

End RecordFacts.

(* ===================================================================== *)
(** ** Facts about [range] and the slices *)
(* ===================================================================== *)

Section BatchFacts.
Context {A : Type}.
Variable batch_size : nat.
Hypothesis batch_size_pos : 0 < batch_size.

(** With enough fuel the loop ends because [i] reaches [stop]; its elements
    are below [stop], and an element that is not the last is followed by
    another one below [stop]. *)
Lemma range_loop_lookup (stop fuel i j x : nat) :
  range_loop fuel i stop batch_size !! j = Some x →
  x < stop ∧
  (S j < length (range_loop fuel i stop batch_size) → x + batch_size < stop).
Proof.
  revert i j. induction fuel as [|fuel IH]; intros i j; simpl; [done|].
  case_decide as Hi; [|done].
  destruct j as [|j]; simpl.
  - intros [= <-]. split; [done|].
    destruct fuel as [|fuel]; simpl; [lia|].
    case_decide; simpl; lia.
  - intros Hj. apply IH in Hj as [? Hnext]. split; [done|].
    intros Hlen. apply Hnext. lia.
Qed.

Lemma range_loop_concat (rows : list A) (fuel i : nat) :
  length rows - i ≤ fuel →
  concat ((λ i, Pandas.iloc rows i (i + batch_size))
            <$> range_loop fuel i (length rows) batch_size) = drop i rows.
Proof.
  revert i. induction fuel as [|fuel IH]; intros i Hfuel; simpl.
  - symmetry. apply drop_ge. lia.
  - case_decide as Hi; simpl.
    + rewrite IH by lia. unfold Pandas.iloc.
      replace (i + batch_size - i) with batch_size by lia.
      rewrite <- (take_drop batch_size (drop i rows)) at 2.
      by rewrite drop_drop.
    + symmetry. apply drop_ge. lia.
Qed.

Lemma iloc_length (rows : list A) (i : nat) :
  length (Pandas.iloc rows i (i + batch_size)) = batch_size `min` (length rows - i).
Proof.
  unfold Pandas.iloc. rewrite length_take, length_drop. lia.
Qed.

(** The slices cover the rows once and in order. *)
Lemma batches_concat (rows : list A) : concat (batches batch_size rows) = rows.
Proof. unfold batches. by rewrite range_loop_concat by lia. Qed.

(** Every slice has between one and [batch_size] rows, and every slice but
    the last has exactly [batch_size]. *)
Lemma batches_sizes (rows : list A) (j : nat) (b : list A) :
  batches batch_size rows !! j = Some b →
  1 ≤ length b ≤ batch_size ∧
  (S j < length (batches batch_size rows) → length b = batch_size).
Proof.
  unfold batches. rewrite list_lookup_fmap, length_fmap.
  destruct (range_loop _ _ _ _ !! j) as [x|] eqn:Hx; [|done].
  intros [= <-]. apply range_loop_lookup in Hx as [Hlt Hnext].
  rewrite iloc_length. split; [lia|]. intros Hj. specialize (Hnext Hj). lia.
Qed.

(** The sizes depend on the number of rows only. *)
Lemma batches_lengths (rows : list A) :
  length <$> batches batch_size rows =
  (λ i, batch_size `min` (length rows - i))
    <$> range_loop (length rows) 0 (length rows) batch_size.
Proof.
  unfold batches. rewrite <- list_fmap_compose. apply list_fmap_ext.
  intros _ i _. simpl. apply iloc_length.
Qed.

End BatchFacts.

Section RangeClosed.
Variable batch_size : nat.
Hypothesis batch_size_pos : 0 < batch_size.

Lemma ceil_div_step (x : nat) :
  0 < x →
  (x + batch_size - 1) / batch_size = S ((x - batch_size + batch_size - 1) / batch_size).
Proof.
  intros Hx.
  replace (x + batch_size - 1) with ((x - 1) + 1 * batch_size) by lia.
  rewrite Nat.div_add by lia. rewrite Nat.add_1_r. f_equal.
  destruct (decide (batch_size ≤ x)) as [Hle|Hlt].
  - f_equal. lia.
  - rewrite !Nat.div_small; lia.
Qed.

(** [range(i, stop, step)] is [i, i + step, i + 2 step, ...], with as many
    elements as [step] fits into [stop - i], rounded up. *)
Lemma range_loop_closed (stop fuel i : nat) :
  stop - i ≤ fuel →
  range_loop fuel i stop batch_size =
  (λ j, i + j * batch_size) <$> seq 0 ((stop - i + batch_size - 1) / batch_size).
Proof.
  revert i. induction fuel as [|fuel IH]; intros i Hfuel; simpl.
  - replace (stop - i) with 0 by lia. by rewrite Nat.div_small by lia.
  - case_decide as Hi.
    + rewrite IH by lia. rewrite (ceil_div_step (stop - i)) by lia.
      replace (stop - i - batch_size) with (stop - (i + batch_size)) by lia.
      cbn [seq fmap list_fmap]. f_equal; [lia|].
      rewrite <- fmap_S_seq, <- list_fmap_compose.
      apply list_fmap_ext. intros _ j _. simpl. lia.
    + replace (stop - i) with 0 by lia. by rewrite Nat.div_small by lia.
Qed.

End RangeClosed.

(** The slices one by one: the [j]-th holds the rows from [j * batch_size]
    on, [batch_size] of them at most; there are as many as [batch_size] fits
    into the number of rows, rounded up. *)
Lemma batches_closed {A} (batch_size : nat) (rows : list A) :
  0 < batch_size →
  batches batch_size rows =
  (λ j, take batch_size (drop (j * batch_size) rows))
    <$> seq 0 ((length rows + batch_size - 1) / batch_size).
Proof.
  intros Hpos. unfold batches.
  rewrite (range_loop_closed batch_size Hpos) by lia.
  rewrite Nat.sub_0_r, <- list_fmap_compose. apply list_fmap_ext.
  intros _ j _. simpl. unfold Pandas.iloc. f_equal. lia.
Qed.

Lemma batches_lookup {A} (batch_size : nat) (rows : list A) (j : nat) :
  0 < batch_size →
  j < (length rows + batch_size - 1) / batch_size →
  batches batch_size rows !! j = Some (take batch_size (drop (j * batch_size) rows)).
Proof.
  intros Hpos Hj. rewrite batches_closed by done.
  rewrite list_lookup_fmap, lookup_seq_lt by done. done.
Qed.

Lemma batches_fmap {A B} (g : A → B) (batch_size : nat) (rows : list A) :
  batches batch_size (g <$> rows) = (λ b : list A, g <$> b) <$> batches batch_size rows.
Proof.
  unfold batches. rewrite length_fmap, <- list_fmap_compose.
  apply list_fmap_ext. intros _ i _. simpl. unfold Pandas.iloc.
  by rewrite fmap_take, fmap_drop.
Qed.

(* ===================================================================== *)
(** ** Facts about the table *)
(* ===================================================================== *)

Section SinkFacts.
Variable oc : string.
Variable ku : bool.

Local Abbreviation key_of := (Sink.key_of oc).
Local Abbreviation update := (Sink.update ku).
Local Abbreviation upsert_row := (Sink.upsert_row oc ku).
Local Abbreviation upsert_record := (Sink.upsert_record oc ku).
Local Abbreviation apply_all := (foldl (Sink.upsert_record oc ku)).

Lemma key_of_union (r row : record) (k : value) :
  key_of r = Some k → key_of (r ∪ row) = Some k.
Proof. unfold Sink.key_of. intros H. by apply lookup_union_Some_l. Qed.

Lemma key_of_update (r row : record) (k : value) :
  key_of r = Some k → key_of (update r row) = Some k.
Proof. unfold Sink.update. destruct ku; [apply key_of_union | done]. Qed.

Lemma upsert_record_keyed (t : table) (r : record) (k : value) :
  key_of r = Some k → upsert_record t r = upsert_row k r t.
Proof. unfold Sink.upsert_record. by intros ->. Qed.

Lemma upsert_record_keyless (t : table) (r : record) :
  key_of r = None → upsert_record t r = t.
Proof. unfold Sink.upsert_record. by intros ->. Qed.

(** *** One stored row under a sequence of records *)

Lemma absorb_key (k : value) (rs : list record) (row : record) :
  key_of row = Some k → key_of (absorb oc ku k rs row) = Some k.
Proof.
  unfold absorb. revert row. induction rs as [|r rs IH]; intros row Hrow; [done|].
  simpl. apply IH. case_decide; [by apply key_of_update | done].
Qed.

(** A sink that keeps the unnamed fields lays the records over the row. *)
Lemma absorb_union (k : value) (rs : list record) (row : record) :
  ku = true → absorb oc ku k rs row = absorb oc ku k rs ∅ ∪ row.
Proof.
  intros Hku. unfold absorb, Sink.update. rewrite Hku.
  revert row. induction rs as [|r rs IH]; intros row; simpl.
  - by rewrite (left_id_L ∅ (∪)).
  - case_decide; [|by apply IH].
    rewrite (IH (r ∪ row)), (IH (r ∪ ∅)).
    by rewrite (right_id_L ∅ (∪)), (assoc_L (∪)).
Qed.

(** A sink that replaces the row leaves the row as it was or forgets it. *)
Lemma absorb_replace (k : value) (rs : list record) (row : record) :
  ku = false →
  absorb oc ku k rs row = row ∨ ∀ row', absorb oc ku k rs row' = absorb oc ku k rs row.
Proof.
  intros Hku. unfold absorb, Sink.update. rewrite Hku.
  revert row. induction rs as [|r rs IH]; intros row; simpl; [by left|].
  case_decide; [by right | apply IH].
Qed.

Lemma absorb_idemp (k : value) (rs : list record) (row : record) :
  absorb oc ku k rs (absorb oc ku k rs row) = absorb oc ku k rs row.
Proof.
  pose proof absorb_union as HU. pose proof absorb_replace as HR.
  destruct ku.
  - rewrite (HU k rs (absorb oc true k rs row)), (HU k rs row) by done.
    by rewrite (assoc_L (∪)), (idemp_L (∪)).
  - destruct (HR k rs row eq_refl) as [H|H]; [by rewrite !H | apply H].
Qed.

Lemma absorb_again (k : value) (rs : list record) (r : record) :
  absorb oc ku k rs (update r (absorb oc ku k rs r)) = absorb oc ku k rs r.
Proof.
  pose proof absorb_union as HU.
  destruct ku; unfold Sink.update; [|done].
  rewrite (HU k rs (r ∪ _)), (HU k rs r) by done.
  apply map_eq. intros f. rewrite !lookup_union.
  by destruct (absorb oc true k rs ∅ !! f), (r !! f).
Qed.

(** The head row takes the records of its key; the other records go on to
    the rest of the table. *)
Lemma apply_all_cons (k : value) (row : record) (t : table) (rs : list record) :
  key_of row = Some k →
  apply_all (row :: t) rs = absorb oc ku k rs row :: apply_all t (others oc k rs).
Proof.
  revert row t. induction rs as [|r rs IH]; intros row t Hrow; [done|].
  unfold others. simpl. rewrite filter_cons.
  destruct (key_of r) as [k'|] eqn:Hr.
  - rewrite (upsert_record_keyed _ _ _ Hr). simpl. rewrite Hrow.
    destruct (decide (Some k = Some k')) as [[= <-]|Hne].
    + rewrite decide_True by done. rewrite decide_False by naive_solver.
      rewrite IH by by apply key_of_update. done.
    + rewrite decide_False by congruence. rewrite decide_True by congruence.
      rewrite IH by done. simpl. by rewrite (upsert_record_keyed _ _ _ Hr).
  - rewrite (upsert_record_keyless _ _ Hr).
    rewrite decide_False by congruence. rewrite decide_True by congruence.
    rewrite IH by done. simpl. by rewrite (upsert_record_keyless _ _ Hr).
Qed.

(** A stored row without a key is never matched. *)
Lemma apply_all_cons_keyless (row : record) (t : table) (rs : list record) :
  key_of row = None → apply_all (row :: t) rs = row :: apply_all t rs.
Proof.
  revert t. induction rs as [|r rs IH]; intros t Hrow; [done|]. simpl.
  destruct (key_of r) as [k'|] eqn:Hr.
  - rewrite !(upsert_record_keyed _ _ _ Hr). simpl. rewrite Hrow.
    rewrite decide_False by done. by apply IH.
  - rewrite !(upsert_record_keyless _ _ Hr). by apply IH.
Qed.

Lemma others_length (k : value) (rs : list record) :
  length (others oc k rs) ≤ length rs.
Proof. apply length_filter. Qed.

(** Applying a sequence of records a second time changes nothing. *)
Lemma apply_all_idemp (t : table) (rs : list record) :
  apply_all (apply_all t rs) rs = apply_all t rs.
Proof.
  revert rs. induction t as [|row t IH]; intros rs.
  - enough (∀ n (rs : list record), length rs ≤ n →
              apply_all (apply_all [] rs) rs = apply_all [] rs) as H by by eapply H.
    clear rs. intros n. induction n as [|n IHn]; intros [|r rs] Hlen;
      [done | simpl in Hlen; lia | done |].
    simpl in Hlen. destruct (key_of r) as [k|] eqn:Hr.
    + cbn [foldl]. rewrite (upsert_record_keyed [] _ _ Hr). simpl.
      rewrite (apply_all_cons k) by done.
      pose proof (absorb_key k rs r Hr) as Hx.
      rewrite (upsert_record_keyed _ _ _ Hr). simpl.
      rewrite Hx, decide_True by done.
      rewrite (apply_all_cons k) by by apply key_of_update.
      rewrite absorb_again. f_equal. apply IHn.
      pose proof (others_length k rs). lia.
    + cbn [foldl]. rewrite (upsert_record_keyless [] _ Hr).
      rewrite (upsert_record_keyless _ _ Hr). apply IHn. lia.
  - destruct (key_of row) as [k|] eqn:Hrow.
    + rewrite (apply_all_cons k) by done.
      rewrite (apply_all_cons k) by by apply absorb_key.
      by rewrite absorb_idemp, IH.
    + rewrite (apply_all_cons_keyless _ _ _ Hrow).
      rewrite (apply_all_cons_keyless _ _ _ Hrow). by rewrite IH.
Qed.

(** *** One row per key *)

Lemma rows_with_upsert_row (k k' : value) (r : record) (t : table) :
  key_of r = Some k' →
  length (rows_with oc k (upsert_row k' r t)) =
  if decide (k = k') then 1 `max` length (rows_with oc k t)
  else length (rows_with oc k t).
Proof.
  intros Hr. unfold rows_with. induction t as [|row t IH]; simpl.
  - rewrite filter_cons, filter_nil, Hr.
    destruct (decide (k = k')) as [->|Hne].
    + by rewrite decide_True.
    + by rewrite decide_False by congruence.
  - destruct (decide (key_of row = Some k')) as [Hrow|Hrow].
    + rewrite !filter_cons, (key_of_update r row k' Hr), Hrow.
      destruct (decide (k = k')) as [->|Hne].
      * rewrite !decide_True by done. simpl. lia.
      * by rewrite !decide_False by congruence.
    + rewrite !filter_cons. destruct (decide (key_of row = Some k)) as [Hk|Hk].
      * cbn [length]. rewrite IH. by rewrite !decide_False by congruence.
      * by rewrite IH.
Qed.

Lemma rows_with_upsert_record (k : value) (r : record) (t : table) :
  length (rows_with oc k t) ≤ 1 →
  length (rows_with oc k (upsert_record t r)) ≤ 1.
Proof.
  intros Hle. destruct (key_of r) as [k'|] eqn:Hr.
  - rewrite (upsert_record_keyed _ _ _ Hr), rows_with_upsert_row by done.
    case_decide; lia.
  - by rewrite (upsert_record_keyless _ _ Hr).
Qed.

Lemma rows_with_apply_all (k : value) (rs : list record) (t : table) :
  length (rows_with oc k t) ≤ 1 →
  length (rows_with oc k (apply_all t rs)) ≤ 1.
Proof.
  revert t. induction rs as [|r rs IH]; intros t Hle; [done|].
  simpl. apply IH. by apply rows_with_upsert_record.
Qed.

Lemma rows_with_singleton (k : value) (row : record) (t : table) :
  row ∈ t → key_of row = Some k → length (rows_with oc k t) ≤ 1 →
  rows_with oc k t = [row].
Proof.
  intros Hin Hrow Hle.
  assert (row ∈ rows_with oc k t) as Hin' by by apply list_elem_of_filter.
  destruct (rows_with oc k t) as [|x [|y l]]; simpl in Hle.
  - by apply elem_of_nil in Hin'.
  - apply list_elem_of_singleton in Hin'. by subst.
  - lia.
Qed.

(** *** The stored row reflects the last record of its key *)

Lemma upsert_row_stores (k : value) (r : record) (t : table) :
  key_of r = Some k →
  ∃ row, row ∈ upsert_row k r t ∧ key_of row = Some k ∧ r ⊆ row.
Proof.
  intros Hr. induction t as [|row t (row' & Hin & Hk & Hsub)]; simpl.
  - exists r. split; [by left | done].
  - case_decide.
    + exists (update r row). split; [by left|]. split; [by apply key_of_update|].
      unfold Sink.update. destruct ku; [apply map_union_subseteq_l | done].
    + exists row'. split; [by right | done].
Qed.

Lemma upsert_record_keeps (k : value) (row r : record) (t : table) :
  row ∈ t → key_of row = Some k → key_of r ≠ Some k → row ∈ upsert_record t r.
Proof.
  intros Hin Hrow Hr. destruct (key_of r) as [k'|] eqn:Hr'.
  - rewrite (upsert_record_keyed _ _ _ Hr').
    induction t as [|x t IH]; simpl; [by apply elem_of_nil in Hin|].
    apply elem_of_cons in Hin as [<-|Hin].
    + rewrite decide_False by congruence. by left.
    + case_decide; right; [done | by apply IH].
  - by rewrite (upsert_record_keyless _ _ Hr').
Qed.

Lemma apply_all_last (k : value) (r : record) (pre post : list record) (t : table) :
  key_of r = Some k →
  Forall (λ r', key_of r' ≠ Some k) post →
  ∃ row, row ∈ apply_all t (pre ++ r :: post) ∧ key_of row = Some k ∧ r ⊆ row.
Proof.
  intros Hr Hpost. rewrite foldl_app. simpl.
  rewrite (upsert_record_keyed _ _ _ Hr).
  destruct (upsert_row_stores k r (apply_all t pre) Hr) as (row & Hin & Hk & Hsub).
  exists row. split; [|done].
  revert Hin. generalize (upsert_row k r (apply_all t pre)). clear t.
  induction Hpost as [|r' post Hr' _ IH]; intros t Hin; [done|].
  simpl. apply IH. by eapply upsert_record_keeps.
Qed.

(** *** Stored rows stay in place; a write touches only the fields it names *)

Lemma upsert_record_lookup (j : nat) (row r : record) (t : table) :
  t !! j = Some row →
  ∃ row', upsert_record t r !! j = Some row' ∧ (row' = row ∨ row' = update r row).
Proof.
  intros Hj. destruct (key_of r) as [k|] eqn:Hr.
  - rewrite (upsert_record_keyed _ _ _ Hr). revert j Hj.
    induction t as [|x t IH]; intros j Hj; [done|]. simpl.
    destruct j as [|j]; simpl in Hj.
    + injection Hj as ->. case_decide; simpl; eauto.
    + case_decide; simpl; eauto.
  - rewrite (upsert_record_keyless _ _ Hr). eauto.
Qed.

(** A sink that keeps the unnamed fields, fed with records without absent
    value: a stored row stays in its place and each of its fields keeps its
    value or gets one that is not absent. *)
Lemma apply_all_keeps_values (rs : list record) (t : table) (j : nat) (row : record) :
  ku = true →
  Forall (λ r : record, ∀ f v, r !! f = Some v → isna v = false) rs →
  t !! j = Some row →
  ∃ row', apply_all t rs !! j = Some row' ∧
          ∀ f v, row !! f = Some v →
                 ∃ v', row' !! f = Some v' ∧ (v' = v ∨ isna v' = false).
Proof.
  intros Hku Hrs. revert t row.
  induction Hrs as [|r rs Hr _ IH]; intros t row Hj; simpl.
  { exists row. split; [done|]. intros f v Hf. exists v. split; [done | by left]. }
  destruct (upsert_record_lookup j row r t Hj) as (row1 & Hj1 & Hcase).
  destruct (IH _ _ Hj1) as (row' & Hj' & Hkeep).
  exists row'. split; [done|]. intros f v Hf.
  assert (∃ v1, row1 !! f = Some v1 ∧ (v1 = v ∨ isna v1 = false)) as (v1 & Hf1 & Hv1).
  { destruct Hcase as [-> | ->]; [exists v; split; [done | by left]|].
    unfold Sink.update. rewrite Hku, lookup_union.
    destruct (r !! f) as [x|] eqn:Hx; rewrite Hf; simpl;
      [|exists v; split; [done | by left]].
    exists x. split; [done|]. right. by eapply Hr. }
  destruct (Hkeep f v1 Hf1) as (v' & Hf' & Hv').
  exists v'. split; [done|]. destruct Hv' as [-> | ?]; [done | by right].
Qed.

End SinkFacts.

(* ===================================================================== *)
(** ** Facts about a run of [import-simple.py] *)
(* ===================================================================== *)

Section RunFacts.
Import ImportSimple.

Lemma clean_values_columns (df : DataFrame) :
  columns (clean_values df) = columns df.
Proof. unfold clean_values. by case_decide. Qed.

Lemma clean_values_len (df : DataFrame) : df_len (clean_values df) = df_len df.
Proof.
  unfold clean_values, df_len. case_decide; simpl; by rewrite !length_fmap.
Qed.

Lemma clean_values_data (df : DataFrame) :
  data (clean_values df) = clean_row (columns df) <$> data df.
Proof.
  unfold clean_values, clean_row. simpl.
  destruct (decide (NAME_COLUMN ∈ columns df)); simpl; [|done].
  by rewrite <- list_fmap_compose.
Qed.

Lemma to_dict_clean_row (cols : list string) (row : list value) :
  Pandas.to_dict cols (clean_row cols row) = normalize_dict (Pandas.to_dict cols row).
Proof.
  unfold clean_row, normalize_dict. case_decide as Hname.
  - by rewrite to_dict_map_at, to_dict_fmap.
  - rewrite to_dict_fmap. symmetry. apply alter_id'.
    rewrite lookup_fmap, to_dict_lookup_None; done.
Qed.

(** The records of a slice of the cleaned frame. *)
Lemma build_records_clean (cols : list string) (b : list (list value)) :
  build_records cols (clean_row cols <$> b) = sent cols b.
Proof.
  rewrite build_records_filter, <- list_fmap_compose. unfold sent. f_equal.
  apply list_fmap_ext. intros _ row _. simpl. unfold record_of.
  by rewrite to_dict_clean_row.
Qed.

Lemma api_upsert_spec (w : World) (n : nat) (records : list record) (t : table) :
  api_upsert w n records t =
  if rejected w n records then None
  else Some (foldl (Sink.upsert_record ON_CONFLICT (sink_keeps_unnamed w)) t records).
Proof.
  unfold api_upsert, rejected, Sink.upsert.
  destruct (api_raises w n records); [done|]. simpl.
  by destruct (forallb _ records).
Qed.

Lemma accepted_app (w : World) (n : nat) (cs cs' : list (list record)) :
  accepted w n (cs ++ cs') = accepted w n cs ++ accepted w (n + length cs) cs'.
Proof.
  revert n. induction cs as [|c cs IH]; intros n; simpl.
  - by rewrite Nat.add_0_r.
  - rewrite IH, <- app_assoc. do 3 f_equal. lia.
Qed.

Lemma accepted_keyed (w : World) (n : nat) (cs : list (list record)) :
  Forall (λ r, is_Some (Sink.key_of ON_CONFLICT r)) (accepted w n cs).
Proof.
  revert n. induction cs as [|c cs IH]; intros n; simpl; [done|].
  apply Forall_app. split; [|done]. unfold rejected.
  destruct (api_raises w n c); simpl; [done|].
  destruct (forallb _ c) eqn:E; simpl; [|done].
  apply Forall_forall. intros r Hr.
  rewrite forallb_forall in E. apply list_elem_of_In, E in Hr.
  by apply bool_decide_eq_true in Hr.
Qed.

(** With no failure every record of every call is accepted. *)
Lemma accepted_all (w : World) (n : nat) (cs : list (list record)) :
  failures w n cs = 0 → accepted w n cs = concat cs.
Proof.
  revert n. induction cs as [|c cs IH]; intros n; simpl; [done|].
  destruct (rejected w n c); simpl; [done|]. intros H. by rewrite IH.
Qed.

(** An accepted record is a record of a call. *)
Lemma accepted_elem (w : World) (n : nat) (cs : list (list record)) (r : record) :
  r ∈ accepted w n cs → ∃ c, c ∈ cs ∧ r ∈ c.
Proof.
  revert n. induction cs as [|c cs IH]; intros n; simpl; [by intros ?%elem_of_nil|].
  intros [Hr|Hr]%elem_of_app.
  - destruct (rejected w n c); [by apply elem_of_nil in Hr|].
    exists c. split; [by left | done].
  - destruct (IH _ Hr) as (c' & ? & ?). exists c'. split; [by right | done].
Qed.

Section Loop.
Variables (w : World) (batch_size total_rows total_batches : nat) (df : DataFrame).

Local Abbreviation payload := (payload batch_size df).

Lemma loop_spec (starts : list nat) (st : State) :
  let st' := foldl (step w batch_size total_rows total_batches df) st starts in
  let new := payload <$> starts in
  calls st' = calls st ++ new ∧
  errors st' = errors st + failures w (length (calls st)) new ∧
  imported st' = imported st + length (accepted w (length (calls st)) new) ∧
  sink st' =
    foldl (Sink.upsert_record ON_CONFLICT (sink_keeps_unnamed w)) (sink st)
          (accepted w (length (calls st)) new).
Proof.
  revert st. induction starts as [|i starts IH]; intros st; simpl.
  - rewrite app_nil_r. split_and!; try done; lia.
  - destruct (IH (step w batch_size total_rows total_batches df st i))
      as (Hc & He & Hi & Hs). clear IH.
    rewrite Hc, He, Hi, Hs. clear Hc He Hi Hs.
    unfold step. rewrite api_upsert_spec.
    destruct (rejected w (length (calls st)) (payload i)) eqn:Hrej; simpl;
      rewrite length_app; simpl;
      replace (length (calls st) + 1) with (S (length (calls st))) by lia.
    + rewrite <- app_assoc. split_and!; try done. unfold fmap. lia.
    + rewrite <- app_assoc, length_app, foldl_app. split_and!; try done.
      unfold fmap. lia.
Qed.

End Loop.

Lemma try_clean_values_Some (df : DataFrame) :
  is_Some (try_clean_values df) → try_clean_values df = Some (clean_values df).
Proof. unfold try_clean_values. destruct (name_raises _); [by intros [? ?] | done]. Qed.

Lemma try_clean_values_None (df : DataFrame) :
  ¬ is_Some (try_clean_values df) → try_clean_values df = None.
Proof. destruct (try_clean_values df); [intros []; by eexists | done]. Qed.

(** A run that gets its client and its file and raises at line 46 has
    called nothing. *)
Lemma main_raises (batch_size : nat) (w : World) (df0 : DataFrame) :
  client_ok w = true → parquet w = Some df0 →
  try_clean_values (clean_columns df0) = None →
  main_with batch_size w =
  uncaught (mkState (companies w) 0 0 [] [PLoaded (df_len (clean_columns df0))]).
Proof.
  intros Hclient Hfile Hraise. unfold main_with.
  rewrite Hclient, Hfile. cbv zeta. by rewrite Hraise.
Qed.

(** What a run that gets its client and its file and gets past line 46
    does. *)
Lemma main_spec (batch_size : nat) (w : World) (df0 : DataFrame) :
  0 < batch_size → client_ok w = true → parquet w = Some df0 →
  is_Some (try_clean_values (clean_columns df0)) →
  let df := clean_values (clean_columns df0) in
  let r := main_with batch_size w in
  let cs := build_records (columns df) <$> batches batch_size (data df) in
  exit_code r = 0 ∧
  calls (final r) = cs ∧
  errors (final r) = failures w 0 cs ∧
  imported (final r) = length (accepted w 0 cs) ∧
  sink (final r) =
    foldl (Sink.upsert_record ON_CONFLICT (sink_keeps_unnamed w)) (companies w)
          (accepted w 0 cs) ∧
  summary r = [PImported (imported (final r)); PErrors (errors (final r))].
Proof.
  intros Hpos Hclient Hfile Hname. unfold main_with. rewrite Hclient, Hfile.
  cbv zeta. rewrite (try_clean_values_Some _ Hname).
  rewrite decide_False by lia. unfold py_range. rewrite decide_False by lia.
  match goal with |- context [foldl ?f ?st ?l] =>
    destruct (loop_spec w batch_size (df_len (clean_columns df0))
      ((df_len (clean_columns df0) + batch_size - 1) / batch_size)
      (clean_values (clean_columns df0)) l st) as (Hc & He & Hi & Hs)
  end.
  simpl in Hc, He, Hi, Hs.
  assert (payload batch_size (clean_values (clean_columns df0)) <$>
            range_loop (df_len (clean_columns df0)) 0
              (df_len (clean_columns df0)) batch_size =
          build_records (columns (clean_values (clean_columns df0))) <$>
            batches batch_size (data (clean_values (clean_columns df0)))) as Heq.
  { unfold batches. fold (df_len (clean_values (clean_columns df0))).
    rewrite clean_values_len, <- list_fmap_compose. done. }
  rewrite Heq in Hc, He, Hi, Hs. cbn [exit_code final calls errors imported sink].
  rewrite Hc, He, Hi, Hs. repeat (split; [done|]).
  unfold summary. simpl. rewrite length_app. simpl.
  match goal with |- context [stdout ?st] => generalize (stdout st) end.
  intros l. replace (length l + 2 - 2) with (length l) by lia.
  by rewrite drop_app_length.
Qed.

(** The outcomes of a run: it ends on an uncaught exception before the
    loop, or it is the run of [main_spec]. *)
Lemma main_cases (batch_size : nat) (w : World) :
  (∃ out, main_with batch_size w = uncaught (mkState (companies w) 0 0 [] out)) ∨
  (∃ df0, 0 < batch_size ∧ client_ok w = true ∧ parquet w = Some df0 ∧
          is_Some (try_clean_values (clean_columns df0))).
Proof.
  destruct (client_ok w) eqn:Hclient;
    [|left; exists []; unfold main_with; by rewrite Hclient].
  destruct (parquet w) as [df0|] eqn:Hfile;
    [|left; exists []; unfold main_with; by rewrite Hclient, Hfile].
  destruct (try_clean_values (clean_columns df0)) as [df|] eqn:Hname;
    [|left; eexists; by apply main_raises].
  destruct (decide (batch_size = 0)) as [->|Hpos].
  - left. eexists. unfold main_with. rewrite Hclient, Hfile. cbv zeta.
    by rewrite Hname.
  - right. exists df0. split; [lia|]. split; [done|]. split; [done|].
    rewrite Hname. by eexists.
Qed.

(** The table after a run is the table before it with the accepted records
    applied in order. *)
Lemma main_calls_sink (batch_size : nat) (w : World) :
  let r := main_with batch_size w in
  sink (final r) =
    foldl (Sink.upsert_record ON_CONFLICT (sink_keeps_unnamed w)) (companies w)
          (accepted w 0 (calls (final r))).
Proof.
  destruct (main_cases batch_size w) as [[out ->]|(df0 & Hpos & Hclient & Hfile & Hname)];
    [done|].
  destruct (main_spec batch_size w df0) as (_ & Hc & _ & _ & Hs & _); [done..|].
  simpl. by rewrite Hs, Hc.
Qed.

Lemma concat_build_records (cols : list string) (bs : list (list (list value))) :
  concat (build_records cols <$> bs) = build_records cols (concat bs).
Proof.
  induction bs as [|b bs IH]; [done|].
  change (build_records cols b ++ concat (build_records cols <$> bs) =
          build_records cols (b ++ concat bs)).
  rewrite IH, !build_records_filter, fmap_app, filter_app. done.
Qed.

(** The calls of a run: one per slice of the rows, with the records of the
    slice. *)
Lemma main_calls_batches (batch_size : nat) (w : World) (df0 : DataFrame) :
  0 < batch_size → client_ok w = true → parquet w = Some df0 →
  is_Some (try_clean_values (clean_columns df0)) →
  let df := clean_columns df0 in
  calls (final (main_with batch_size w)) =
  sent (columns df) <$> batches batch_size (data df).
Proof.
  intros Hpos Hclient Hfile Hname.
  destruct (main_spec batch_size w df0 Hpos Hclient Hfile Hname) as (_ & -> & _).
  cbv zeta. rewrite clean_values_columns, clean_values_data, batches_fmap.
  rewrite <- list_fmap_compose. apply list_fmap_ext. intros _ b _. simpl.
  apply build_records_clean.
Qed.

Lemma concat_sent (cols : list string) (bs : list (list (list value))) :
  concat (sent cols <$> bs) = sent cols (concat bs).
Proof.
  induction bs as [|b bs IH]; [done|].
  change (sent cols b ++ concat (sent cols <$> bs) = sent cols (b ++ concat bs)).
  rewrite IH. unfold sent. by rewrite fmap_app, filter_app.
Qed.

(** The calls of a run one by one: as many as there are slices, the [j]-th
    with the records of the rows from [j * batch_size] on. *)
Lemma main_calls_slices (batch_size : nat) (w : World) (df0 : DataFrame) :
  0 < batch_size → client_ok w = true → parquet w = Some df0 →
  is_Some (try_clean_values (clean_columns df0)) →
  let df := clean_columns df0 in
  let cs := calls (final (main_with batch_size w)) in
  length cs = (df_len df + batch_size - 1) / batch_size ∧
  ∀ j, j < length cs →
    cs !! j = Some (sent (columns df) (take batch_size (drop (j * batch_size) (data df)))).
Proof.
  intros Hpos Hclient Hfile Hname df cs.
  assert (length cs = (df_len df + batch_size - 1) / batch_size) as Hlen.
  { unfold cs. rewrite (main_calls_batches batch_size w df0) by done. cbv zeta.
    rewrite length_fmap, batches_closed by done.
    by rewrite length_fmap, length_seq. }
  split; [done|]. intros j Hj. unfold cs.
  rewrite (main_calls_batches batch_size w df0) by done. cbv zeta.
  rewrite list_lookup_fmap, batches_lookup; [done | done |].
  rewrite Hlen in Hj. exact Hj.
Qed.

(** All calls of a run, put end to end: the records of the rows, in order,
    without the empty ones. *)
Lemma main_records (batch_size : nat) (w : World) (df0 : DataFrame) :
  0 < batch_size → client_ok w = true → parquet w = Some df0 →
  is_Some (try_clean_values (clean_columns df0)) →
  let df := clean_columns df0 in
  concat (calls (final (main_with batch_size w))) = sent (columns df) (data df).
Proof.
  intros Hpos Hclient Hfile Hname. cbv zeta.
  rewrite (main_calls_batches batch_size w df0) by done.
  by rewrite concat_sent, batches_concat.
Qed.

(** The calls of a run do not depend on the table. *)
Lemma main_calls_rerun (batch_size : nat) (w : World) (t : table) :
  calls (final (main_with batch_size (rerun w t))) =
  calls (final (main_with batch_size w)).
Proof.
  destruct (client_ok w) eqn:Hclient;
    [|unfold main_with, rerun; simpl; by rewrite Hclient].
  destruct (parquet w) as [df0|] eqn:Hfile;
    [|unfold main_with, rerun; simpl; by rewrite Hclient, Hfile].
  destruct (try_clean_values (clean_columns df0)) as [df|] eqn:Hname;
    [|by rewrite !(main_raises _ _ df0)].
  destruct (decide (batch_size = 0)) as [->|Hpos].
  - unfold main_with, rerun. simpl. rewrite Hclient, Hfile. cbv zeta.
    by rewrite Hname.
  - assert (is_Some (try_clean_values (clean_columns df0))) as Hsome
      by (rewrite Hname; by eexists).
    destruct (main_spec batch_size w df0) as (_ & -> & _); [lia|done..|].
    destruct (main_spec batch_size (rerun w t) df0) as (_ & -> & _);
      [lia|done..|]. done.
Qed.

(** Every record of every call is non-empty and holds no absent value. *)
Lemma main_calls_present (batch_size : nat) (w : World) :
  Forall (Forall (λ r : record, r ≠ ∅ ∧ ∀ k v, r !! k = Some v → isna v = false))
         (calls (final (main_with batch_size w))).
Proof.
  destruct (main_cases batch_size w) as [[out ->]|(df0 & Hpos & Hclient & Hfile & Hname)];
    [by constructor|].
  destruct (main_spec batch_size w df0) as (_ & -> & _); [done..|].
  simpl. apply Forall_fmap, Forall_forall. intros b _. simpl.
  rewrite build_records_filter. apply Forall_forall. intros r Hr.
  apply list_elem_of_filter in Hr as [Hne Hr]. split; [done|].
  apply list_elem_of_fmap in Hr as (row & -> & _).
  intros k v Hk. by apply build_record_Some in Hk as [_ ?].
Qed.

End RunFacts.

(* ===================================================================== *)
(** ** The properties of the pipeline *)
(* ===================================================================== *)

Lemma normalize_dict_lookup (d : gmap string value) (k : string) :
  normalize_dict d !! k =
  if decide (ImportSimple.NAME_COLUMN = k)
  then Pandas.str_split_first DELIM <$> ((λ v, if isna v then VNone else v) <$> d !! k)
  else (λ v, if isna v then VNone else v) <$> d !! k.
Proof.
  unfold normalize_dict. rewrite lookup_alter, !lookup_fmap.
  case_decide; by subst.
Qed.

Lemma split_first_string (s : string) :
  ∃ name,
    Pandas.str_split_first DELIM (VStr s) = VStr name ∧
    Str.contains DELIM name = false ∧
    if Str.contains DELIM s
    then ∃ rest, s = (name ++ String DELIM rest)%string
    else name = s.
Proof.
  destruct (split_head DELIM s) as (piece & pieces & Hs & Hp & Hno & Hyes).
  exists piece. simpl. rewrite Hs. split; [done|]. split; [done|].
  destruct (Str.contains DELIM s); [by apply Hyes | by apply Hno].
Qed.

(** An absent entry of a row gives no entry of the record. *)
Lemma record_of_absent (cols : list string) (row : list value) (k : string) (v : value) :
  Pandas.to_dict cols row !! k = Some v → isna v = true →
  record_of cols row !! k = None.
Proof.
  intros Hk Hv. unfold record_of.
  rewrite build_record_lookup, normalize_dict_lookup, Hk. simpl. rewrite Hv.
  by case_decide.
Qed.

(** A string entry gives the string, cut at the delimiter under the name
    column. *)
Lemma record_of_string (cols : list string) (row : list value) (k s : string) :
  Pandas.to_dict cols row !! k = Some (VStr s) →
  record_of cols row !! k =
  Some (if decide (ImportSimple.NAME_COLUMN = k)
        then Pandas.str_split_first DELIM (VStr s) else VStr s).
Proof.
  intros Hk. unfold record_of.
  rewrite build_record_lookup, normalize_dict_lookup, Hk.
  case_decide; [|done]. cbn [fmap option_fmap option_map isna mbind option_bind].
  by destruct (split_first_string s) as (name & -> & _).
Qed.

(** C7.  A raw name that is a string is stored as its part before the first
    delimiter: the stored name has no delimiter, and the raw name is the
    stored name, the delimiter and a rest when it contains the delimiter,
    and the stored name itself when it does not.  The name ["Acme AB$1"]
    is stored as ["Acme AB"], by the upsert script and by the CSV
    conversion alike. *)
Theorem C7_name_normalization (s : string) :
  (∃ name,
     Pandas.str_split_first DELIM (VStr s) = VStr name ∧
     Str.contains DELIM name = false ∧
     (if Str.contains DELIM s
      then ∃ rest, s = (name ++ String DELIM rest)%string
      else name = s) ∧
     ∀ cols row,
       Pandas.to_dict cols row !! ImportSimple.NAME_COLUMN = Some (VStr s) →
       record_of cols row !! ImportSimple.NAME_COLUMN = Some (VStr name)) ∧
  Pandas.str_split_first DELIM (VStr "Acme AB$1") = VStr "Acme AB" ∧
  ImportSimple.calls (ImportSimple.final
      (ImportSimple.main (Samples.world Samples.df_acme))) =
    [[ {[ "organisationsidentitet" := VStr "5560000001";
          "organisationsnamn" := VStr "Acme AB" ]} ]] ∧
  ParquetToCsv.main (Some Samples.df_acme) =
    Some [["organisationsidentitet"; "organisationsnamn"]; ["5560000001"; "Acme AB"]].
Proof.
  split; [|split; [reflexivity|split; reflexivity]].
  destruct (split_first_string s) as (name & Hname & Hno & Hs).
  exists name. split; [done|]. split; [done|]. split; [done|].
  intros cols row Hk. rewrite (record_of_string _ _ _ _ Hk).
  by rewrite decide_True, Hname.
Qed.

Lemma C7_name_normalization_witness :
  Pandas.to_dict ["organisationsnamn"] [VStr "Acme AB$1"] !! ImportSimple.NAME_COLUMN
    = Some (VStr "Acme AB$1") ∧
  record_of ["organisationsnamn"] [VStr "Acme AB$1"] !! ImportSimple.NAME_COLUMN
    = Some (VStr "Acme AB").
Proof.
  split; [reflexivity|].
  destruct (C7_name_normalization "Acme AB$1") as [(name & Hname & _ & _ & Hrec) _].
  rewrite (Hrec ["organisationsnamn"] [VStr "Acme AB$1"]) by reflexivity.
  f_equal. symmetry. exact Hname.
Defined.

(** The entries of the record of a row: the entries of the row that are not
    absent, with their values, the name cut at the delimiter. *)
Lemma record_of_lookup (cols : list string) (row : list value) (k : string) (v : value) :
  record_of cols row !! k = Some v ↔
  ∃ x, Pandas.to_dict cols row !! k = Some x ∧
       is_not_none x = true ∧ eq_self x = true ∧
       v = (if decide (ImportSimple.NAME_COLUMN = k)
            then Pandas.str_split_first DELIM x else x) ∧
       isna v = false.
Proof.
  unfold record_of. rewrite build_record_Some, normalize_dict_lookup.
  destruct (Pandas.to_dict cols row !! k) as [x|]; simpl.
  - split.
    + intros [Hv Hna]. exists x. split; [done|].
      destruct (isna x) eqn:Hx.
      * case_decide; simplify_eq/=; done.
      * assert (is_not_none x = true ∧ eq_self x = true) as [? ?]
          by (by destruct x).
        split; [done|]. split; [done|]. split; [|done].
        case_decide; by simplify_eq/=.
    + intros (x' & [= <-] & Hnn & Hself & -> & Hna). split; [|done].
      assert (isna x = false) as -> by (by destruct x).
      by case_decide.
  - split; [by case_decide; intros [? _] | by intros (? & ? & _)].
Qed.

(** C9, as the code has it.  The record built from a row holds exactly the
    entries of the row that are not None and equal to themselves, with
    their values (the name cut at the delimiter); the calls of a run carry
    the records of the rows, in order, without the empty ones, and no record
    of any call holds an absent value.  What this does to the table is the
    sink's affair: in a sink that keeps the fields that an update does not
    name, every stored row stays in its place through the whole run and each
    of its fields keeps its value or gets one that is not absent. *)
Theorem C9_absent_fields_omitted :
  (∀ (d : gmap string value) (k : string) (v : value),
     ImportSimple.build_record d !! k = Some v ↔
     d !! k = Some v ∧ is_not_none v = true ∧ eq_self v = true) ∧
  (∀ (cols : list string) (row : list value) (k : string) (v : value),
     record_of cols row !! k = Some v ↔
     ∃ x, Pandas.to_dict cols row !! k = Some x ∧
          is_not_none x = true ∧ eq_self x = true ∧
          v = (if decide (ImportSimple.NAME_COLUMN = k)
               then Pandas.str_split_first DELIM x else x) ∧
          isna v = false) ∧
  (∀ (batch_size : nat) (w : ImportSimple.World) (df0 : DataFrame),
     0 < batch_size →
     ImportSimple.client_ok w = true →
     ImportSimple.parquet w = Some df0 →
     is_Some (ImportSimple.try_clean_values (ImportSimple.clean_columns df0)) →
     let df := ImportSimple.clean_columns df0 in
     concat (ImportSimple.calls (ImportSimple.final (ImportSimple.main_with batch_size w))) =
     filter (λ r : record, r ≠ ∅) (record_of (columns df) <$> data df)) ∧
  (∀ (batch_size : nat) (w : ImportSimple.World) (c : list record) (r : record)
     (k : string) (v : value),
     c ∈ ImportSimple.calls (ImportSimple.final (ImportSimple.main_with batch_size w)) →
     r ∈ c → r !! k = Some v → v ≠ VNone ∧ v ≠ VNaN) ∧
  (∀ (batch_size : nat) (w : ImportSimple.World) (j : nat) (row : record),
     ImportSimple.sink_keeps_unnamed w = true →
     ImportSimple.companies w !! j = Some row →
     ∃ row',
       ImportSimple.sink (ImportSimple.final (ImportSimple.main_with batch_size w)) !! j
         = Some row' ∧
       ∀ f v, row !! f = Some v →
              ∃ v', row' !! f = Some v' ∧ (v' = v ∨ isna v' = false)).
Proof.
  split_and!.
  - intros d k v. rewrite build_record_Some.
    destruct v; simpl; split; intros H; split_and?; by destruct_and?.
  - apply record_of_lookup.
  - intros batch_size w df0 Hpos Hclient Hfile Hname df.
    by rewrite (main_records batch_size w df0).
  - intros batch_size w c r k v Hc Hr Hk.
    pose proof (main_calls_present batch_size w) as Hall.
    rewrite Forall_forall in Hall. specialize (Hall c Hc).
    rewrite Forall_forall in Hall. destruct (Hall r Hr) as [_ Hv].
    specialize (Hv k v Hk). by destruct v.
  - intros batch_size w j row Hku Hj.
    rewrite (main_calls_sink batch_size w).
    apply apply_all_keeps_values; [done | | done].
    apply Forall_forall. intros r Hr.
    apply accepted_elem in Hr as (c & Hc & Hr).
    pose proof (main_calls_present batch_size w) as Hall.
    rewrite Forall_forall in Hall. specialize (Hall c Hc).
    rewrite Forall_forall in Hall. by destruct (Hall r Hr) as [_ Hv].
Qed.

Lemma C9_absent_fields_omitted_witness :
  0 < 500 ∧
  ImportSimple.client_ok (Samples.world_stored true) = true ∧
  ImportSimple.parquet (Samples.world_stored true) = Some Samples.df_no_address ∧
  is_Some (ImportSimple.try_clean_values (ImportSimple.clean_columns Samples.df_no_address)) ∧
  ImportSimple.sink_keeps_unnamed (Samples.world_stored true) = true ∧
  record_of ["organisationsidentitet"; "postadress"] [VStr "1"; VNaN] !! "organisationsidentitet"
    = Some (VStr "1") ∧
  concat (ImportSimple.calls (ImportSimple.final
            (ImportSimple.main_with 500 (Samples.world_stored true)))) =
    [ {[ "organisationsidentitet" := VStr "1" ]} ] ∧
  ∃ row',
    ImportSimple.sink (ImportSimple.final
      (ImportSimple.main_with 500 (Samples.world_stored true))) !! 0 = Some row' ∧
    ∃ v', row' !! "postadress" = Some v' ∧ (v' = VStr "Storgatan 1" ∨ isna v' = false).
Proof.
  destruct C9_absent_fields_omitted as (_ & Hrec & Hcalls & _ & Hsink).
  assert (is_Some (ImportSimple.try_clean_values
                     (ImportSimple.clean_columns Samples.df_no_address))) as Hname
    by (eexists; reflexivity).
  split; [lia|]. split; [reflexivity|]. split; [reflexivity|]. split; [exact Hname|].
  split; [reflexivity|]. split; [|split].
  - apply Hrec. exists (VStr "1").
    split; [reflexivity|]. split; [reflexivity|]. split; [reflexivity|].
    split; reflexivity.
  - rewrite (Hcalls 500 (Samples.world_stored true) Samples.df_no_address);
      [reflexivity | lia | reflexivity | reflexivity | exact Hname].
  - destruct (Hsink 500 (Samples.world_stored true) 0
                {[ "organisationsidentitet" := VStr "1"; "postadress" := VStr "Storgatan 1" ]}
                eq_refl eq_refl) as (row' & Hrow' & Hkeep).
    exists row'. split; [exact Hrow'|]. apply Hkeep. reflexivity.
Defined.

(** C9 as stated fails in a sink that replaces the row by the record: the
    record sent for the company leaves the absent address out, and the
    address that the table held is gone after the call. *)
Lemma C9_counterexample :
  ImportSimple.companies (Samples.world_stored false) =
    [ {[ "organisationsidentitet" := VStr "1"; "postadress" := VStr "Storgatan 1" ]} ] ∧
  ImportSimple.calls (ImportSimple.final (ImportSimple.main (Samples.world_stored false))) =
    [[ {[ "organisationsidentitet" := VStr "1" ]} ]] ∧
  ImportSimple.sink (ImportSimple.final (ImportSimple.main (Samples.world_stored false))) =
    [ {[ "organisationsidentitet" := VStr "1" ]} ] ∧
  ¬ (∀ (j : nat) (row : record) (f : string),
       ImportSimple.companies (Samples.world_stored false) !! j = Some row →
       is_Some (row !! f) →
       ∃ row',
         ImportSimple.sink (ImportSimple.final
           (ImportSimple.main (Samples.world_stored false))) !! j = Some row' ∧
         is_Some (row' !! f)).
Proof.
  split; [reflexivity|]. split; [reflexivity|]. split; [reflexivity|].
  intros H.
  destruct (H 0 {[ "organisationsidentitet" := VStr "1"; "postadress" := VStr "Storgatan 1" ]}
              "postadress" eq_refl) as (row' & Hrow' & [v Hv]).
  { eexists. reflexivity. }
  assert (row' = {[ "organisationsidentitet" := VStr "1" ]}) as ->.
  { assert (ImportSimple.sink (ImportSimple.final
              (ImportSimple.main (Samples.world_stored false))) =
            [ {[ "organisationsidentitet" := VStr "1" ]} ]) as Hs by reflexivity.
    rewrite Hs in Hrow'. by injection Hrow'. }
  discriminate Hv.
Qed.

(** C1, as the code has it.  A natively absent entry of a row (NaN or None)
    sends no value to the sink: the upsert script leaves the field out of
    the record, and the CSV conversion writes the null token.  A string
    without delimiter, the empty string and the two characters backslash, N
    among them, is sent unchanged by the upsert script and written as it is
    by the CSV conversion. *)
Theorem C1_absent_values (cols : list string) (row : list value) (k : string) :
  (∀ v, Pandas.to_dict cols row !! k = Some v → isna v = true →
        record_of cols row !! k = None) ∧
  (∀ s, Pandas.to_dict cols row !! k = Some (VStr s) → Str.contains DELIM s = false →
        record_of cols row !! k = Some (VStr s)) ∧
  (∀ v, isna v = true → ParquetToCsv.csv_cell ParquetToCsv.NA_REP v = "\N") ∧
  (∀ s, ParquetToCsv.csv_cell ParquetToCsv.NA_REP (VStr s) = s).
Proof.
  split; [|split; [|split]].
  - intros v. apply record_of_absent.
  - intros s Hk Hno. rewrite (record_of_string _ _ _ _ Hk).
    case_decide; [|done].
    destruct (split_first_string s) as (name & -> & _ & Hs).
    rewrite Hno in Hs. by subst.
  - intros v Hv. unfold ParquetToCsv.csv_cell. by rewrite Hv.
  - done.
Qed.

Lemma C1_absent_values_witness :
  record_of (columns Samples.df_strings) [VStr "5560000001"; VStr ""; VStr "\N"; VNaN]
    !! "avregistreringsdatum" = None ∧
  record_of (columns Samples.df_strings) [VStr "5560000001"; VStr ""; VStr "\N"; VNaN]
    !! "postadress" = Some (VStr "") ∧
  record_of (columns Samples.df_strings) [VStr "5560000001"; VStr ""; VStr "\N"; VNaN]
    !! "verksamhetsbeskrivning" = Some (VStr "\N").
Proof.
  split; [|split].
  - apply (C1_absent_values _ _ "avregistreringsdatum") with (v := VNaN); reflexivity.
  - apply (C1_absent_values _ _ "postadress"); reflexivity.
  - apply (C1_absent_values _ _ "verksamhetsbeskrivning"); reflexivity.
Defined.

(** C1 as stated fails: the empty string and the string backslash, N reach
    the sink as strings. *)
Lemma C1_counterexample :
  ImportSimple.calls (ImportSimple.final
    (ImportSimple.main (Samples.world Samples.df_strings))) =
  [[ {[ "organisationsidentitet" := VStr "5560000001";
        "postadress" := VStr "";
        "verksamhetsbeskrivning" := VStr "\N" ]} ]].
Proof. reflexivity. Qed.

(** *** Slices and the records sent for them *)

Lemma sent_length (cols : list string) (b : list (list value)) :
  length (sent cols b) ≤ length b.
Proof.
  unfold sent. etrans; [apply length_filter|]. by rewrite length_fmap.
Qed.

Lemma sent_full (cols : list string) (b : list (list value)) :
  Forall (λ row, record_of cols row ≠ ∅) b → sent cols b = record_of cols <$> b.
Proof.
  unfold sent. induction 1 as [|row b Hrow _ IH]; [done|].
  rewrite fmap_cons, filter_cons, decide_True by done. by rewrite IH.
Qed.

Lemma sent_nil (cols : list string) (b : list (list value)) :
  sent cols b = [] ↔ Forall (λ row, record_of cols row = ∅) b.
Proof.
  unfold sent. induction b as [|row b IH]; [done|].
  rewrite fmap_cons, filter_cons, Forall_cons. case_decide as Hrow.
  - split; [done | by intros [? _]].
  - rewrite IH. split; [by intros ? | by intros [_ ?]].
Qed.

Lemma sent_skipped_length (cols : list string) (rows : list (list value)) :
  length (sent cols rows) + length (skipped cols rows) = length rows.
Proof.
  unfold sent, skipped. induction rows as [|row rows IH]; [done|].
  rewrite fmap_cons, !filter_cons.
  destruct (decide (record_of cols row = ∅)) as [He|Hne].
  - rewrite decide_False by (intros ?; done). simpl. lia.
  - rewrite decide_True by done. simpl. lia.
Qed.

(** A row whose cells are all absent gives the empty record. *)
Lemma record_of_all_absent (cols : list string) (row : list value) :
  Forall (λ v, isna v = true) row → record_of cols row = ∅.
Proof.
  intros Hrow. unfold record_of. apply build_record_empty. intros k v.
  rewrite normalize_dict_lookup.
  destruct (Pandas.to_dict cols row !! k) as [x|] eqn:Hx;
    [|case_decide; done].
  apply to_dict_lookup_Some in Hx. rewrite Forall_forall in Hrow.
  specialize (Hrow x Hx). simpl. rewrite Hrow.
  case_decide; by intros [= <-].
Qed.

(** C3.  In a run that gets to its loop (line 46 does not raise), when
    every row gives a record, the calls carry the records of the rows, each
    once and in the order of the rows; every call carries between one and
    [batch_size] records and every call but the last exactly [batch_size];
    1201 rows in batches of 500 give three calls of 500, 500 and 201
    records. *)
Theorem C3_batches_cover (batch_size : nat) (w : ImportSimple.World) (df0 : DataFrame) :
  0 < batch_size →
  ImportSimple.client_ok w = true →
  ImportSimple.parquet w = Some df0 →
  is_Some (ImportSimple.try_clean_values (ImportSimple.clean_columns df0)) →
  let df := ImportSimple.clean_columns df0 in
  Forall (λ row, record_of (columns df) row ≠ ∅) (data df) →
  let cs := ImportSimple.calls (ImportSimple.final (ImportSimple.main_with batch_size w)) in
  concat cs = record_of (columns df) <$> data df ∧
  (∀ j c, cs !! j = Some c →
          1 ≤ length c ≤ batch_size ∧ (S j < length cs → length c = batch_size)) ∧
  (df_len df = 1201 → batch_size = 500 → length <$> cs = [500; 500; 201]).
Proof.
  intros Hpos Hclient Hfile Hname df Hfull cs.
  assert (cs = (λ b : list (list value), record_of (columns df) <$> b)
                 <$> batches batch_size (data df))
    as Hcs.
  { unfold cs. rewrite (main_calls_batches batch_size w df0) by done.
    apply list_fmap_ext. intros j b Hb. apply sent_full.
    apply list_elem_of_lookup_2 in Hb. unfold batches in Hb.
    apply list_elem_of_fmap in Hb as (i & -> & _).
    by apply Forall_take, Forall_drop. }
  assert (length <$> cs = length <$> batches batch_size (data df)) as Hlen.
  { rewrite Hcs, <- list_fmap_compose. apply list_fmap_ext.
    intros _ b _. simpl. by rewrite length_fmap. }
  split; [|split].
  - unfold cs. rewrite (main_records batch_size w df0) by done. by apply sent_full.
  - intros j c Hc.
    assert ((length <$> cs) !! j = Some (length c)) as Hj
      by by rewrite list_lookup_fmap, Hc.
    rewrite Hlen, list_lookup_fmap in Hj.
    destruct (batches batch_size (data df) !! j) as [b|] eqn:Hb; [|done].
    injection Hj as Hj. rewrite <- Hj.
    replace (length cs) with (length (batches batch_size (data df)))
      by (by rewrite <- (length_fmap length cs), Hlen, length_fmap).
    by apply batches_sizes.
  - intros Hn ->. rewrite Hlen, batches_lengths by lia. unfold df_len in Hn.
    rewrite Hn. by vm_compute.
Qed.

Lemma C3_batches_cover_witness :
  0 < 2 ∧
  ImportSimple.client_ok (Samples.world Samples.df_three) = true ∧
  ImportSimple.parquet (Samples.world Samples.df_three) = Some Samples.df_three ∧
  is_Some (ImportSimple.try_clean_values (ImportSimple.clean_columns Samples.df_three)) ∧
  Forall (λ row, record_of (columns (ImportSimple.clean_columns Samples.df_three)) row ≠ ∅)
         (data (ImportSimple.clean_columns Samples.df_three)) ∧
  concat (ImportSimple.calls (ImportSimple.final
            (ImportSimple.main_with 2 (Samples.world Samples.df_three)))) =
  record_of (columns (ImportSimple.clean_columns Samples.df_three))
    <$> data (ImportSimple.clean_columns Samples.df_three) ∧
  ∀ j c,
    ImportSimple.calls (ImportSimple.final
      (ImportSimple.main_with 2 (Samples.world Samples.df_three))) !! j = Some c →
    1 ≤ length c ≤ 2.
Proof.
  assert (Forall (λ row, record_of (columns (ImportSimple.clean_columns Samples.df_three)) row ≠ ∅)
            (data (ImportSimple.clean_columns Samples.df_three))) as Hfull.
  { change (data (ImportSimple.clean_columns Samples.df_three))
      with [[VStr "1"; VStr "A AB"]; [VStr "2"; VStr "B AB"]; [VStr "3"; VNaN]].
    repeat (apply Forall_cons; split;
            [apply (record_nonempty _ "organisationsidentitet"); eexists; reflexivity|]).
    by apply Forall_nil. }
  assert (is_Some (ImportSimple.try_clean_values
                     (ImportSimple.clean_columns Samples.df_three))) as Hname
    by (eexists; reflexivity).
  split; [lia|]. split; [reflexivity|]. split; [reflexivity|]. split; [exact Hname|].
  split; [exact Hfull|].
  destruct (C3_batches_cover 2 (Samples.world Samples.df_three) Samples.df_three)
    as (Hcover & Hsizes & _); [lia | reflexivity | reflexivity | exact Hname | exact Hfull |].
  split; [exact Hcover|]. intros j c Hc. exact (proj1 (Hsizes j c Hc)).
Defined.

(** C8, as the code has it.  A run that gets to its loop makes one call per
    slice of the rows: as many calls as [batch_size] fits into the number of
    rows, rounded up, the [j]-th with the records of the rows from
    [j * batch_size] on.  The slice has between one and [batch_size] rows,
    so the call carries at most [batch_size] records; it carries none
    exactly when every row of the slice gives the empty record, and the call
    is made all the same. *)
Theorem C8_batch_bounds (batch_size : nat) (w : ImportSimple.World) (df0 : DataFrame) :
  0 < batch_size →
  ImportSimple.client_ok w = true →
  ImportSimple.parquet w = Some df0 →
  is_Some (ImportSimple.try_clean_values (ImportSimple.clean_columns df0)) →
  let df := ImportSimple.clean_columns df0 in
  let cs := ImportSimple.calls (ImportSimple.final (ImportSimple.main_with batch_size w)) in
  length cs = (df_len df + batch_size - 1) / batch_size ∧
  ∀ j, j < length cs →
    let b := take batch_size (drop (j * batch_size) (data df)) in
    cs !! j = Some (sent (columns df) b) ∧
    1 ≤ length b ≤ batch_size ∧
    length (sent (columns df) b) ≤ batch_size ∧
    (sent (columns df) b = [] ↔ Forall (λ row, record_of (columns df) row = ∅) b).
Proof.
  intros Hpos Hclient Hfile Hname df cs.
  destruct (main_calls_slices batch_size w df0 Hpos Hclient Hfile Hname) as [Hlen Hslices].
  fold df cs in Hlen, Hslices.
  split; [done|]. intros j Hj b. split; [by apply Hslices|].
  assert (batches batch_size (data df) !! j = Some b) as Hb.
  { apply batches_lookup; [done|]. rewrite Hlen in Hj. exact Hj. }
  destruct (batches_sizes batch_size Hpos _ _ _ Hb) as [Hsize _].
  split; [done|]. split; [pose proof (sent_length (columns df) b); lia|].
  apply sent_nil.
Qed.

Lemma C8_batch_bounds_witness :
  0 < 500 ∧
  ImportSimple.client_ok (Samples.world Samples.df_empty_row) = true ∧
  ImportSimple.parquet (Samples.world Samples.df_empty_row) = Some Samples.df_empty_row ∧
  is_Some (ImportSimple.try_clean_values (ImportSimple.clean_columns Samples.df_empty_row)) ∧
  length (ImportSimple.calls (ImportSimple.final
            (ImportSimple.main_with 500 (Samples.world Samples.df_empty_row)))) = 1 ∧
  ImportSimple.calls (ImportSimple.final
    (ImportSimple.main_with 500 (Samples.world Samples.df_empty_row))) !! 0 = Some [].
Proof.
  assert (is_Some (ImportSimple.try_clean_values
                     (ImportSimple.clean_columns Samples.df_empty_row))) as Hname
    by (eexists; reflexivity).
  split; [lia|]. split; [reflexivity|]. split; [reflexivity|]. split; [exact Hname|].
  destruct (C8_batch_bounds 500 (Samples.world Samples.df_empty_row) Samples.df_empty_row)
    as [Hlen Hcalls]; [lia | reflexivity | reflexivity | exact Hname |].
  split; [exact Hlen|].
  destruct (Hcalls 0) as (Hcall & _); [rewrite Hlen; vm_compute; lia|].
  exact Hcall.
Defined.

(** C8 as stated fails: a slice whose rows are all absent is sent as an empty
    collection. *)
Lemma C8_counterexample :
  ¬ Forall (λ c : list record, 1 ≤ length c ≤ ImportSimple.BATCH_SIZE)
      (ImportSimple.calls (ImportSimple.final
         (ImportSimple.main (Samples.world Samples.df_empty_row)))).
Proof.
  assert (ImportSimple.calls (ImportSimple.final
            (ImportSimple.main (Samples.world Samples.df_empty_row))) = [[]]) as ->
    by reflexivity.
  intros H. apply Forall_cons in H as [[H _] _]. simpl in H. lia.
Qed.

Lemma sent_rows (cols : list string) (rows : list (list value)) :
  sent cols rows = record_of cols <$> filter (λ row, record_of cols row ≠ ∅) rows.
Proof.
  unfold sent. induction rows as [|row rows IH]; [done|].
  rewrite fmap_cons, !filter_cons. case_decide; [|done].
  by rewrite fmap_cons, IH.
Qed.

(** C4, as the code has it.  In a run that gets to its loop, a row whose
    cells are all absent gives no record and is not sent: the calls carry
    the records of the other rows only.  The run counts the imported records and the failed calls, and the
    run-end summary shows these two counts and nothing else; there is no
    count of skipped rows and no percentage in it.  When no call fails, the
    imported records and the rows without record add up to the rows of the
    frame. *)
Theorem C4_skip_accounting (batch_size : nat) (w : ImportSimple.World) (df0 : DataFrame) :
  0 < batch_size →
  ImportSimple.client_ok w = true →
  ImportSimple.parquet w = Some df0 →
  is_Some (ImportSimple.try_clean_values (ImportSimple.clean_columns df0)) →
  let df := ImportSimple.clean_columns df0 in
  let r := ImportSimple.main_with batch_size w in
  (∀ row, row ∈ data df → Forall (λ v, isna v = true) row →
          row ∈ skipped (columns df) (data df)) ∧
  concat (ImportSimple.calls (ImportSimple.final r)) =
    record_of (columns df) <$> filter (λ row, record_of (columns df) row ≠ ∅) (data df) ∧
  ImportSimple.summary r =
    [ImportSimple.PImported (ImportSimple.imported (ImportSimple.final r));
     ImportSimple.PErrors (ImportSimple.errors (ImportSimple.final r))] ∧
  (ImportSimple.errors (ImportSimple.final r) = 0 →
   ImportSimple.imported (ImportSimple.final r) + length (skipped (columns df) (data df))
   = df_len df).
Proof.
  intros Hpos Hclient Hfile Hname df r.
  destruct (main_spec batch_size w df0 Hpos Hclient Hfile Hname)
    as (_ & Hcalls & Herr & Himp & _ & Hsum).
  pose proof (main_records batch_size w df0 Hpos Hclient Hfile Hname) as Hrec.
  cbv zeta in Hrec. fold df in Hrec.
  split; [|split; [|split]].
  - intros row Hin Hrow. apply list_elem_of_filter. split; [|done].
    by apply record_of_all_absent.
  - unfold r. by rewrite Hrec, sent_rows.
  - exact Hsum.
  - unfold r. intros Hzero. rewrite Himp.
    rewrite Herr in Hzero. rewrite (accepted_all _ _ _ Hzero).
    rewrite <- Hcalls, Hrec. apply sent_skipped_length.
Qed.

Lemma C4_skip_accounting_witness :
  0 < 500 ∧
  ImportSimple.client_ok (Samples.world Samples.df_one_and_empty) = true ∧
  ImportSimple.parquet (Samples.world Samples.df_one_and_empty) = Some Samples.df_one_and_empty ∧
  is_Some (ImportSimple.try_clean_values
             (ImportSimple.clean_columns Samples.df_one_and_empty)) ∧
  [VNaN] ∈ skipped (columns (ImportSimple.clean_columns Samples.df_one_and_empty))
                   (data (ImportSimple.clean_columns Samples.df_one_and_empty)) ∧
  ImportSimple.summary (ImportSimple.main_with 500 (Samples.world Samples.df_one_and_empty)) =
    [ImportSimple.PImported (ImportSimple.imported (ImportSimple.final
        (ImportSimple.main_with 500 (Samples.world Samples.df_one_and_empty))));
     ImportSimple.PErrors (ImportSimple.errors (ImportSimple.final
        (ImportSimple.main_with 500 (Samples.world Samples.df_one_and_empty))))].
Proof.
  assert (is_Some (ImportSimple.try_clean_values
                     (ImportSimple.clean_columns Samples.df_one_and_empty))) as Hname
    by (eexists; reflexivity).
  split; [lia|]. split; [reflexivity|]. split; [reflexivity|]. split; [exact Hname|].
  destruct (C4_skip_accounting 500 (Samples.world Samples.df_one_and_empty)
              Samples.df_one_and_empty)
    as (Hskip & _ & Hsum & _); [lia | reflexivity | reflexivity | exact Hname |].
  split; [|exact Hsum].
  apply Hskip.
  - change (data (ImportSimple.clean_columns Samples.df_one_and_empty))
      with [[VStr "1"]; [VNaN]].
    right. left.
  - apply Forall_cons. split; [reflexivity | by apply Forall_nil].
Defined.

(** C4 as stated fails: no count of skipped rows can be read off the run-end
    summary, since a frame with an all-absent row and a frame without it end
    with the same summary. *)
Lemma C4_counterexample :
  ¬ ∃ skipped_count : list ImportSimple.line → nat,
      ∀ df, skipped_count (ImportSimple.summary (ImportSimple.main (Samples.world df))) =
            length (filter (λ row, forallb isna row = true) (data df)).
Proof.
  intros [f Hf].
  pose proof (Hf Samples.df_one) as H1.
  pose proof (Hf Samples.df_one_and_empty) as H2.
  assert (ImportSimple.summary (ImportSimple.main (Samples.world Samples.df_one_and_empty)) =
          ImportSimple.summary (ImportSimple.main (Samples.world Samples.df_one))) as Heq
    by reflexivity.
  rewrite Heq, H1 in H2. discriminate H2.
Qed.

(** C6.  A run that gets to its loop ends with status 0 whatever the calls
    do; every slice of the rows gets its call, the [j]-th call carrying the
    records of the rows from [j * batch_size] on, whether earlier calls
    raised or not; the error count is the number of calls that raised, the
    imported count is the number of records of the calls that returned, and
    both are in the summary.  One iteration whose call raises adds one to
    the error count and leaves the imported count and the table as they
    were. *)
Theorem C6_batch_isolation (batch_size : nat) (w : ImportSimple.World) (df0 : DataFrame) :
  0 < batch_size →
  ImportSimple.client_ok w = true →
  ImportSimple.parquet w = Some df0 →
  is_Some (ImportSimple.try_clean_values (ImportSimple.clean_columns df0)) →
  let df := ImportSimple.clean_columns df0 in
  let r := ImportSimple.main_with batch_size w in
  let cs := ImportSimple.calls (ImportSimple.final r) in
  ImportSimple.exit_code r = 0 ∧
  length cs = (df_len df + batch_size - 1) / batch_size ∧
  (∀ j, j < length cs →
        cs !! j = Some (sent (columns df)
                          (take batch_size (drop (j * batch_size) (data df))))) ∧
  ImportSimple.errors (ImportSimple.final r) = failures w 0 cs ∧
  ImportSimple.imported (ImportSimple.final r) = length (accepted w 0 cs) ∧
  ImportSimple.summary r =
    [ImportSimple.PImported (ImportSimple.imported (ImportSimple.final r));
     ImportSimple.PErrors (ImportSimple.errors (ImportSimple.final r))] ∧
  (∀ st i total_rows total_batches df',
     ImportSimple.api_upsert w (length (ImportSimple.calls st))
       (ImportSimple.payload batch_size df' i) (ImportSimple.sink st) = None →
     let st' := ImportSimple.step w batch_size total_rows total_batches df' st i in
     ImportSimple.errors st' = ImportSimple.errors st + 1 ∧
     ImportSimple.imported st' = ImportSimple.imported st ∧
     ImportSimple.sink st' = ImportSimple.sink st).
Proof.
  intros Hpos Hclient Hfile Hname df r cs.
  destruct (main_spec batch_size w df0 Hpos Hclient Hfile Hname)
    as (Hexit & Hcalls & Herr & Himp & _ & Hsum).
  destruct (main_calls_slices batch_size w df0 Hpos Hclient Hfile Hname) as [Hlen Hslices].
  split; [done|]. split; [done|]. split; [done|].
  unfold cs, r. rewrite Hcalls. split; [done|]. split; [done|]. split; [done|].
  intros st i total_rows total_batches df' Hnone. unfold ImportSimple.step.
  by rewrite Hnone.
Qed.

Lemma C6_batch_isolation_witness :
  0 < 1 ∧
  ImportSimple.client_ok Samples.world_third_fails = true ∧
  ImportSimple.parquet Samples.world_third_fails = Some Samples.df_five ∧
  is_Some (ImportSimple.try_clean_values (ImportSimple.clean_columns Samples.df_five)) ∧
  ImportSimple.exit_code (ImportSimple.main_with 1 Samples.world_third_fails) = 0 ∧
  length (ImportSimple.calls (ImportSimple.final
            (ImportSimple.main_with 1 Samples.world_third_fails))) = 5 ∧
  ImportSimple.calls (ImportSimple.final
    (ImportSimple.main_with 1 Samples.world_third_fails)) !! 3 =
    Some [ {[ "organisationsidentitet" := VStr "4" ]} ] ∧
  ImportSimple.errors (ImportSimple.final
    (ImportSimple.main_with 1 Samples.world_third_fails)) = 1 ∧
  ImportSimple.imported (ImportSimple.final
    (ImportSimple.main_with 1 Samples.world_third_fails)) = 4.
Proof.
  assert (is_Some (ImportSimple.try_clean_values
                     (ImportSimple.clean_columns Samples.df_five))) as Hname
    by (eexists; reflexivity).
  split; [lia|]. split; [reflexivity|]. split; [reflexivity|]. split; [exact Hname|].
  destruct (C6_batch_isolation 1 Samples.world_third_fails Samples.df_five)
    as (Hexit & Hlen & Hslices & Herr & Himp & _);
    [lia | reflexivity | reflexivity | exact Hname |].
  split; [exact Hexit|]. split; [exact Hlen|]. split; [|split].
  - rewrite (Hslices 3); [reflexivity | rewrite Hlen; vm_compute; lia].
  - rewrite Herr. reflexivity.
  - rewrite Himp. reflexivity.
Defined.

(** Batch 3 of 5 fails: five calls are made, four records are imported, one
    error is counted, and the status is 0. *)
Example third_of_five_fails :
  let r := ImportSimple.main_with 1 Samples.world_third_fails in
  length (ImportSimple.calls (ImportSimple.final r)) = 5 ∧
  ImportSimple.imported (ImportSimple.final r) = 4 ∧
  ImportSimple.errors (ImportSimple.final r) = 1 ∧
  ImportSimple.exit_code r = 0 ∧
  length (ImportSimple.sink (ImportSimple.final r)) = 4.
Proof. cbv zeta. split_and!; reflexivity. Qed.

(** C2.  Running the upsert script a second time on the table that the first
    run left, with the same input and the same calls failing, leaves the
    table as the first run left it: same rows, same content.  In a run that
    gets to its loop, the calls carry the records of the rows slice by
    slice, the table after the run is the table before it with the records
    of the calls that returned applied in order, and these are the records
    of all rows when no call raised.  When the table had at most one row per
    key value before the run, it has at most one after it, and the row of a
    key holds every field of the last accepted record of that key. *)
Theorem C2_upsert_idempotent (batch_size : nat) (w : ImportSimple.World) :
  let r1 := ImportSimple.main_with batch_size w in
  let t1 := ImportSimple.sink (ImportSimple.final r1) in
  let r2 := ImportSimple.main_with batch_size (rerun w t1) in
  ImportSimple.sink (ImportSimple.final r2) = t1 ∧
  (∀ df0,
     0 < batch_size →
     ImportSimple.client_ok w = true →
     ImportSimple.parquet w = Some df0 →
     is_Some (ImportSimple.try_clean_values (ImportSimple.clean_columns df0)) →
     let df := ImportSimple.clean_columns df0 in
     let cs := ImportSimple.calls (ImportSimple.final r1) in
     length cs = (df_len df + batch_size - 1) / batch_size ∧
     (∀ j, j < length cs →
           cs !! j = Some (sent (columns df)
                             (take batch_size (drop (j * batch_size) (data df))))) ∧
     t1 = foldl (Sink.upsert_record ImportSimple.ON_CONFLICT
                   (ImportSimple.sink_keeps_unnamed w))
                (ImportSimple.companies w) (accepted w 0 cs) ∧
     (ImportSimple.errors (ImportSimple.final r1) = 0 →
      accepted w 0 cs = sent (columns df) (data df)) ∧
     ((∀ k, length (rows_with ImportSimple.ON_CONFLICT k (ImportSimple.companies w)) ≤ 1) →
      (∀ k, length (rows_with ImportSimple.ON_CONFLICT k t1) ≤ 1) ∧
      (∀ pre r post k,
         accepted w 0 cs = pre ++ r :: post →
         Sink.key_of ImportSimple.ON_CONFLICT r = Some k →
         Forall (λ r', Sink.key_of ImportSimple.ON_CONFLICT r' ≠ Some k) post →
         ∃ row, rows_with ImportSimple.ON_CONFLICT k t1 = [row] ∧ r ⊆ row))).
Proof.
  intros r1 t1 r2.
  assert (t1 = foldl (Sink.upsert_record ImportSimple.ON_CONFLICT
                        (ImportSimple.sink_keeps_unnamed w))
                 (ImportSimple.companies w)
                 (accepted w 0 (ImportSimple.calls (ImportSimple.final r1)))) as Ht1
    by apply main_calls_sink.
  split.
  - unfold r2. rewrite (main_calls_sink batch_size (rerun w t1)).
    rewrite main_calls_rerun. fold r1.
    change (accepted (rerun w t1)) with (accepted w).
    change (ImportSimple.companies (rerun w t1)) with t1.
    change (ImportSimple.sink_keeps_unnamed (rerun w t1))
      with (ImportSimple.sink_keeps_unnamed w).
    rewrite Ht1. apply apply_all_idemp.
  - intros df0 Hpos Hclient Hfile Hname df cs.
    destruct (main_calls_slices batch_size w df0 Hpos Hclient Hfile Hname)
      as [Hlen Hslices].
    destruct (main_spec batch_size w df0 Hpos Hclient Hfile Hname)
      as (_ & Hcalls & Herr & _).
    split; [done|]. split; [done|]. split; [done|]. split.
    { intros Hzero. unfold r1 in Hzero. rewrite Herr, <- Hcalls in Hzero.
      unfold cs, r1. rewrite (accepted_all _ _ _ Hzero).
      by apply main_records. }
    intros Hunique.
    assert (∀ k, length (rows_with ImportSimple.ON_CONFLICT k t1) ≤ 1) as Hunique1.
    { intros k. rewrite Ht1. by apply rows_with_apply_all. }
    split; [done|].
    intros pre r post k Hacc Hr Hpost.
    destruct (apply_all_last ImportSimple.ON_CONFLICT (ImportSimple.sink_keeps_unnamed w)
                k r pre post (ImportSimple.companies w) Hr Hpost)
      as (row & Hin & Hk & Hsub).
    rewrite <- Hacc in Hin. fold cs in Ht1. rewrite <- Ht1 in Hin.
    exists row. split; [|done]. by apply rows_with_singleton.
Qed.

Lemma C2_upsert_idempotent_witness :
  0 < 500 ∧
  ImportSimple.client_ok (Samples.world Samples.df_twice) = true ∧
  ImportSimple.parquet (Samples.world Samples.df_twice) = Some Samples.df_twice ∧
  is_Some (ImportSimple.try_clean_values (ImportSimple.clean_columns Samples.df_twice)) ∧
  ImportSimple.errors (ImportSimple.final
    (ImportSimple.main_with 500 (Samples.world Samples.df_twice))) = 0 ∧
  (∀ k, length (rows_with ImportSimple.ON_CONFLICT k
                  (ImportSimple.companies (Samples.world Samples.df_twice))) ≤ 1) ∧
  accepted (Samples.world Samples.df_twice) 0
    (ImportSimple.calls (ImportSimple.final
       (ImportSimple.main_with 500 (Samples.world Samples.df_twice)))) =
    [ {[ "organisationsidentitet" := VStr "1"; "organisationsnamn" := VStr "Old AB";
         "postadress" := VStr "Storgatan 1" ]} ] ++
    {[ "organisationsidentitet" := VStr "1"; "organisationsnamn" := VStr "New AB" ]} :: [] ∧
  Sink.key_of ImportSimple.ON_CONFLICT
    {[ "organisationsidentitet" := VStr "1"; "organisationsnamn" := VStr "New AB" ]}
    = Some (VStr "1") ∧
  (∀ k, length (rows_with ImportSimple.ON_CONFLICT k
                  (ImportSimple.sink (ImportSimple.final
                     (ImportSimple.main_with 500 (Samples.world Samples.df_twice))))) ≤ 1) ∧
  ∃ row,
    rows_with ImportSimple.ON_CONFLICT (VStr "1")
      (ImportSimple.sink (ImportSimple.final
         (ImportSimple.main_with 500 (Samples.world Samples.df_twice)))) = [row] ∧
    ({[ "organisationsidentitet" := VStr "1"; "organisationsnamn" := VStr "New AB" ]}
       : record) ⊆ row.
Proof.
  assert (is_Some (ImportSimple.try_clean_values
                     (ImportSimple.clean_columns Samples.df_twice))) as Hname
    by (eexists; reflexivity).
  assert (∀ k, length (rows_with ImportSimple.ON_CONFLICT k
                  (ImportSimple.companies (Samples.world Samples.df_twice))) ≤ 1) as H0.
  { intros k. simpl. lia. }
  assert (accepted (Samples.world Samples.df_twice) 0
            (ImportSimple.calls (ImportSimple.final
               (ImportSimple.main_with 500 (Samples.world Samples.df_twice)))) =
          [ {[ "organisationsidentitet" := VStr "1"; "organisationsnamn" := VStr "Old AB";
               "postadress" := VStr "Storgatan 1" ]} ] ++
          {[ "organisationsidentitet" := VStr "1"; "organisationsnamn" := VStr "New AB" ]}
            :: []) as Hacc by reflexivity.
  split; [lia|]. split; [reflexivity|]. split; [reflexivity|]. split; [exact Hname|].
  split; [reflexivity|]. split; [exact H0|]. split; [exact Hacc|]. split; [reflexivity|].
  destruct (C2_upsert_idempotent 500 (Samples.world Samples.df_twice)) as [_ Hrun].
  destruct (Hrun Samples.df_twice) as (_ & _ & _ & _ & Hkeys);
    [lia | reflexivity | reflexivity | exact Hname |].
  destruct (Hkeys H0) as [Hunique Hlast].
  split; [exact Hunique|].
  apply (Hlast _ _ _ _ Hacc); [reflexivity | by apply Forall_nil].
Defined.

(** The same company twice: the second record wins field by field, and a
    second run changes nothing. *)
Example last_record_wins :
  let df := Samples.df_twice in
  let t1 := ImportSimple.sink (ImportSimple.final (ImportSimple.main (Samples.world df))) in
  t1 = [ {[ "organisationsidentitet" := VStr "1"; "organisationsnamn" := VStr "New AB";
            "postadress" := VStr "Storgatan 1" ]} ] ∧
  ImportSimple.sink (ImportSimple.final
    (ImportSimple.main (rerun (Samples.world df) t1))) = t1.
Proof. cbv zeta. split; reflexivity. Qed.

(* ===================================================================== *)
(** ** The properties of the bulk copy *)
(* ===================================================================== *)

Lemma copy_from_ok (violates : list string → string → bool)
    (lines working : list string) :
  (∀ seen l, violates seen l = false) →
  ImportCsvDirect.copy_from violates lines working = (working ++ lines, true).
Proof.
  intros Hok. revert working. induction lines as [|l lines IH]; intros working; simpl.
  - by rewrite app_nil_r.
  - rewrite Hok, IH. by rewrite <- app_assoc.
Qed.

(** A status other than 0 means that nothing was committed. *)
Lemma main_failed_unchanged (w : ImportCsvDirect.World) :
  ImportCsvDirect.exit_code (ImportCsvDirect.main w) ≠ 0 →
  ImportCsvDirect.committed (ImportCsvDirect.main w) = ImportCsvDirect.companies w.
Proof.
  unfold ImportCsvDirect.main.
  destruct (ImportCsvDirect.connect_ok w); simpl; [|done].
  destruct (ImportCsvDirect.csv_file w) as [[|header rest]|]; simpl; try done.
  by destruct (ImportCsvDirect.copy_from _ _ _) as [working []].
Qed.

(** C5.  When the streaming transfer fails on a row, whatever the rows that
    the transaction had taken before it, the table keeps the rows that were
    committed before the run and no others, and the process ends with
    status 1. *)
Theorem C5_bulk_copy_atomic (w : ImportCsvDirect.World)
    (header : string) (rest working : list string) :
  ImportCsvDirect.connect_ok w = true →
  ImportCsvDirect.csv_file w = Some (header :: rest) →
  ImportCsvDirect.copy_from (ImportCsvDirect.violates w) rest (ImportCsvDirect.companies w)
    = (working, false) →
  ImportCsvDirect.committed (ImportCsvDirect.main w) = ImportCsvDirect.companies w ∧
  ImportCsvDirect.exit_code (ImportCsvDirect.main w) = 1.
Proof.
  intros Hconn Hfile Hcopy. unfold ImportCsvDirect.main.
  by rewrite Hconn, Hfile, Hcopy.
Qed.

Lemma C5_bulk_copy_atomic_witness :
  ImportCsvDirect.connect_ok CsvSamples.world_duplicate = true ∧
  ImportCsvDirect.csv_file CsvSamples.world_duplicate
    = Some ["id,name"; "1,A AB"; "2,B AB"; "3,C AB"; "2,B AB"] ∧
  ImportCsvDirect.copy_from (ImportCsvDirect.violates CsvSamples.world_duplicate)
    ["1,A AB"; "2,B AB"; "3,C AB"; "2,B AB"]
    (ImportCsvDirect.companies CsvSamples.world_duplicate)
    = (["0,Z AB"; "1,A AB"; "2,B AB"; "3,C AB"], false) ∧
  ImportCsvDirect.committed (ImportCsvDirect.main CsvSamples.world_duplicate) = ["0,Z AB"] ∧
  ImportCsvDirect.exit_code (ImportCsvDirect.main CsvSamples.world_duplicate) = 1.
Proof.
  split; [reflexivity|]. split; [reflexivity|]. split; [reflexivity|].
  apply (C5_bulk_copy_atomic CsvSamples.world_duplicate "id,name"
           ["1,A AB"; "2,B AB"; "3,C AB"; "2,B AB"]
           ["0,Z AB"; "1,A AB"; "2,B AB"; "3,C AB"]); reflexivity.
Defined.

(** A transfer that fails on row 900 of 1000: the transaction had taken 899
    rows, none of them is in the table afterwards, and the status is 1. *)
Example fails_on_row_900_of_1000 :
  length (ImportCsvDirect.copy_from
            (ImportCsvDirect.violates CsvSamples.world_row_900)
            (pretty <$> seq 1 1000)
            (ImportCsvDirect.companies CsvSamples.world_row_900)).1 = 900 ∧
  ImportCsvDirect.committed (ImportCsvDirect.main CsvSamples.world_row_900) = ["0"] ∧
  ImportCsvDirect.exit_code (ImportCsvDirect.main CsvSamples.world_row_900) = 1.
Proof. split_and!; vm_compute; reflexivity. Qed.

(** C10.  The loader hands to the transfer the lines of the file after the
    first, whatever the first line is: none when the file is empty (the
    process then ends with status 1 before any transfer), else one stream
    with all the lines but the first.  When no line violates a constraint,
    the table ends with its old rows followed by these lines and the status
    is 0: a first line that is a data row is lost without notice. *)
Theorem C10_first_line_discarded (w : ImportCsvDirect.World) (lines : list string) :
  ImportCsvDirect.connect_ok w = true →
  ImportCsvDirect.csv_file w = Some lines →
  concat (ImportCsvDirect.copied (ImportCsvDirect.main w)) = tail lines ∧
  (∀ first rest, lines = first :: rest →
     ImportCsvDirect.copied (ImportCsvDirect.main w) = [rest] ∧
     ((∀ seen l, ImportCsvDirect.violates w seen l = false) →
      ImportCsvDirect.committed (ImportCsvDirect.main w)
        = ImportCsvDirect.companies w ++ rest ∧
      ImportCsvDirect.exit_code (ImportCsvDirect.main w) = 0)) ∧
  (lines = [] →
     ImportCsvDirect.copied (ImportCsvDirect.main w) = [] ∧
     ImportCsvDirect.exit_code (ImportCsvDirect.main w) = 1).
Proof.
  intros Hconn Hfile. unfold ImportCsvDirect.main. rewrite Hconn, Hfile. simpl.
  destruct lines as [|first rest]; simpl.
  - split; [done|]. split; [by intros ? ? ?|done].
  - destruct (ImportCsvDirect.copy_from _ rest _) as [working ok] eqn:Hcopy.
    split; [destruct ok; simpl; by rewrite app_nil_r|].
    split; [|by intros ?].
    intros first' rest' [= <- <-]. split; [by destruct ok|].
    intros Hok. rewrite copy_from_ok in Hcopy by done.
    by injection Hcopy as <- <-.
Qed.

Lemma C10_first_line_discarded_witness :
  ImportCsvDirect.connect_ok CsvSamples.world_no_header = true ∧
  ImportCsvDirect.csv_file CsvSamples.world_no_header = Some ["1,A AB"; "2,B AB"] ∧
  ImportCsvDirect.copied (ImportCsvDirect.main CsvSamples.world_no_header) = [["2,B AB"]] ∧
  ImportCsvDirect.committed (ImportCsvDirect.main CsvSamples.world_no_header) = ["2,B AB"] ∧
  ImportCsvDirect.exit_code (ImportCsvDirect.main CsvSamples.world_no_header) = 0.
Proof.
  split; [reflexivity|]. split; [reflexivity|].
  destruct (C10_first_line_discarded CsvSamples.world_no_header ["1,A AB"; "2,B AB"]
              eq_refl eq_refl) as (_ & Hrest & _).
  destruct (Hrest "1,A AB" ["2,B AB"] eq_refl) as [Hcopied Hok].
  split; [exact Hcopied|]. apply Hok. intros seen l. reflexivity.
Defined.

(* ===================================================================== *)
(** ** Column cleaning (both conversion scripts) *)
(* ===================================================================== *)

Section ColumnFacts.
Variable label : string.

Local Abbreviation keep := (λ c : string, bool_decide (c ≠ label)).

Lemma select_length (cols : list string) (row : list value) :
  length row = length cols →
  length (Pandas.select keep cols row) = length (filter (λ c, c ≠ label) cols).
Proof.
  revert row. induction cols as [|c cols IH]; intros [|v row] Hlen;
    simpl in *; try done.
  rewrite filter_cons. case_bool_decide; case_decide; try done; simpl; auto.
Qed.

(** Dropping a column removes its entry from the dictionary of each row and
    leaves the other entries alone. *)
Lemma to_dict_select (cols : list string) (row : list value) :
  Pandas.to_dict (filter (λ c, c ≠ label) cols) (Pandas.select keep cols row) =
  delete label (Pandas.to_dict cols row).
Proof.
  unfold Pandas.to_dict.
  enough (∀ d : gmap string value,
    foldl (λ d kv, <[kv.1 := kv.2]> d) (delete label d)
          (zip (filter (λ c, c ≠ label) cols) (Pandas.select keep cols row)) =
    delete label (foldl (λ d kv, <[kv.1 := kv.2]> d) d (zip cols row))) as H.
  { rewrite <- (H ∅). by rewrite delete_empty. }
  revert row. induction cols as [|c cols IH]; intros row d; [done|].
  destruct row as [|v row]; simpl.
  { rewrite filter_cons. case_decide; [|by destruct (filter _ cols)].
    done. }
  rewrite filter_cons. case_bool_decide as Hc; case_decide; try done; simpl.
  - rewrite <- IH. by rewrite delete_insert_ne.
  - rewrite <- IH. f_equal. subst c. by rewrite delete_insert_eq.
Qed.

Lemma filter_not_elem (cols : list string) :
  label ∉ cols → filter (λ c, c ≠ label) cols = cols.
Proof.
  induction cols as [|c cols IH]; intros Hin; [done|].
  apply not_elem_of_cons in Hin as [Hne Hin].
  rewrite filter_cons, decide_True by done. by rewrite IH.
Qed.

End ColumnFacts.

Lemma lower_ascii_idemp (c : ascii) :
  Str.lower_ascii (Str.lower_ascii c) = Str.lower_ascii c.
Proof. by destruct c as [[] [] [] [] [] [] [] []]. Qed.

Lemma lower_idemp (s : string) : Str.lower (Str.lower s) = Str.lower s.
Proof.
  induction s as [|c s IH]; [done|]. simpl. by rewrite lower_ascii_idemp, IH.
Qed.

Lemma lower_filter_lower (P : string → Prop) `{∀ c, Decision (P c)} (cols : list string) :
  Str.lower <$> filter P (Str.lower <$> cols) = filter P (Str.lower <$> cols).
Proof.
  induction cols as [|c cols IH]; [done|].
  rewrite fmap_cons, filter_cons. case_decide; [|done].
  by rewrite fmap_cons, lower_idemp, IH.
Qed.

Lemma clean_columns_columns (df : DataFrame) :
  columns (ImportSimple.clean_columns df) =
  filter (λ c, c ≠ ImportSimple.INDEX_COLUMN) (Str.lower <$> columns df).
Proof.
  unfold ImportSimple.clean_columns. case_decide as Hin; [done|].
  simpl. by rewrite filter_not_elem.
Qed.

Lemma clean_columns_rect (df : DataFrame) :
  df_len (ImportSimple.clean_columns df) = df_len df ∧
  (Forall (λ row, length row = length (columns df)) (data df) →
   Forall (λ row, length row = length (columns (ImportSimple.clean_columns df)))
          (data (ImportSimple.clean_columns df))).
Proof.
  rewrite clean_columns_columns. split.
  - unfold ImportSimple.clean_columns, df_len. case_decide; simpl; [|done].
    by rewrite length_fmap.
  - intros Hrect. unfold ImportSimple.clean_columns. case_decide as Hin; simpl.
    + apply Forall_fmap. eapply Forall_impl; [exact Hrect|].
      intros row Hrow. simpl. apply select_length. by rewrite length_fmap.
    + rewrite filter_not_elem by done. eapply Forall_impl; [exact Hrect|].
      intros row Hrow. simpl. by rewrite length_fmap.
Qed.

(** X1.  After the column cleaning no column is called [__index_level_0__],
    in whatever case it was spelled; the labels are the lower-cased labels
    without that one, in their order; the number of rows is unchanged; and a
    frame whose rows have one cell per column still has. *)
Theorem X1_clean_columns_shape (df : DataFrame) :
  let df' := ImportSimple.clean_columns df in
  (ImportSimple.INDEX_COLUMN ∉ columns df') ∧
  columns df' = filter (λ c, c ≠ ImportSimple.INDEX_COLUMN) (Str.lower <$> columns df) ∧
  df_len df' = df_len df ∧
  (Forall (λ row, length row = length (columns df)) (data df) →
   Forall (λ row, length row = length (columns df')) (data df')).
Proof.
  cbv zeta. destruct (clean_columns_rect df) as [Hlen Hrect].
  split_and!; [|apply clean_columns_columns|exact Hlen|exact Hrect].
  rewrite clean_columns_columns.
  intros Hin. by apply list_elem_of_filter in Hin as [? _].
Qed.

Lemma X1_clean_columns_shape_witness :
  Forall (λ row, length row = length (columns Samples.df_acme)) (data Samples.df_acme) ∧
  Forall (λ row, length row = length (columns (ImportSimple.clean_columns Samples.df_acme)))
         (data (ImportSimple.clean_columns Samples.df_acme)).
Proof.
  assert (Forall (λ row, length row = length (columns Samples.df_acme))
                 (data Samples.df_acme)) as H
    by (apply Forall_cons; split; [reflexivity | by apply Forall_nil]).
  split; [exact H|]. by apply (X1_clean_columns_shape Samples.df_acme).
Defined.

(** X2.  The column cleaning changes the dictionary of a row in two ways
    only: the keys are the lower-cased labels, and the entry of the index
    column is gone.  Every other entry keeps its value. *)
Theorem X2_clean_columns_entries (df : DataFrame) :
  let df' := ImportSimple.clean_columns df in
  Pandas.to_dict (columns df') <$> data df' =
  (λ row, delete ImportSimple.INDEX_COLUMN
            (Pandas.to_dict (Str.lower <$> columns df) row)) <$> data df.
Proof.
  unfold ImportSimple.clean_columns. case_decide as Hin; simpl.
  - rewrite <- list_fmap_compose. apply list_fmap_ext. intros _ row _. simpl.
    apply to_dict_select.
  - apply list_fmap_ext. intros _ row _. simpl. symmetry. apply delete_id.
    by apply to_dict_lookup_None.
Qed.

(** X3.  Cleaning the columns of a cleaned frame changes nothing. *)
Theorem X3_clean_columns_idempotent (df : DataFrame) :
  ImportSimple.clean_columns (ImportSimple.clean_columns df) =
  ImportSimple.clean_columns df.
Proof.
  pose proof (clean_columns_columns df) as Hcols.
  assert (ImportSimple.INDEX_COLUMN ∉ columns (ImportSimple.clean_columns df)) as Hnot.
  { rewrite Hcols. intros Hin. by apply list_elem_of_filter in Hin as [? _]. }
  unfold ImportSimple.clean_columns at 1. simpl.
  assert (Str.lower <$> columns (ImportSimple.clean_columns df) =
          columns (ImportSimple.clean_columns df)) as Hlow.
  { rewrite Hcols. apply lower_filter_lower. }
  unfold Pandas.lower_columns. rewrite Hlow, decide_False by done.
  by destruct (ImportSimple.clean_columns df).
Qed.

(* ===================================================================== *)
(** ** Batch numbering, counters and exit status of [import-simple.py] *)
(* ===================================================================== *)

Section Transcript.
Import ImportSimple.
Variables (w : World) (batch_size total_rows total_batches : nat) (df : DataFrame).

Lemma loop_batch_lines (starts : list nat) (st : State) :
  batch_lines (stdout (foldl (step w batch_size total_rows total_batches df) st starts)) =
  batch_lines (stdout st) ++
  ((λ i, (i / batch_size + 1, total_batches, length (payload batch_size df i))) <$> starts).
Proof.
  revert st. induction starts as [|i starts IH]; intros st; simpl.
  - by rewrite app_nil_r.
  - rewrite IH. unfold step, batch_lines.
    destruct (api_upsert _ _ _ _); simpl; rewrite !omap_app; simpl;
      by rewrite app_nil_r, <- app_assoc.
Qed.

End Transcript.

Lemma failures_le (w : ImportSimple.World) (n : nat) (cs : list (list record)) :
  failures w n cs ≤ length cs.
Proof.
  revert n. induction cs as [|c cs IH]; intros n; simpl; [done|].
  specialize (IH (S n)). destruct (rejected w n c); lia.
Qed.

Lemma accepted_le (w : ImportSimple.World) (n : nat) (cs : list (list record)) :
  length (accepted w n cs) ≤ length (concat cs).
Proof.
  revert n. induction cs as [|c cs IH]; intros n; simpl; [done|].
  specialize (IH (S n)). rewrite !length_app. destruct (rejected w n c); simpl; lia.
Qed.

(** X4.  The number of calls of a run that gets to its loop is the number
    of batches announced, [total_rows] over [batch_size] rounded up, and the
    progress lines are numbered 1, 2, ... up to that number without gap,
    whatever fails; each carries the number of records of its call. *)
Theorem X4_batch_numbering (batch_size : nat) (w : ImportSimple.World) (df0 : DataFrame) :
  0 < batch_size →
  ImportSimple.client_ok w = true →
  ImportSimple.parquet w = Some df0 →
  is_Some (ImportSimple.try_clean_values (ImportSimple.clean_columns df0)) →
  let r := ImportSimple.main_with batch_size w in
  let total_batches := (df_len (ImportSimple.clean_columns df0) + batch_size - 1) / batch_size in
  length (ImportSimple.calls (ImportSimple.final r)) = total_batches ∧
  batch_lines (ImportSimple.stdout (ImportSimple.final r)) =
    imap (λ j c, (S j, total_batches, length c)) (ImportSimple.calls (ImportSimple.final r)).
Proof.
  intros Hpos Hclient Hfile Hname. cbv zeta.
  apply try_clean_values_Some in Hname.
  set (df1 := ImportSimple.clean_columns df0) in *.
  set (df := ImportSimple.clean_values df1).
  set (tb := (df_len df1 + batch_size - 1) / batch_size).
  set (starts := range_loop (df_len df1) 0 (df_len df1) batch_size).
  set (st1 := ImportSimple.mkState (ImportSimple.companies w) 0 0 []
                [ImportSimple.PLoaded (df_len df1)]).
  assert (starts = (λ j, j * batch_size) <$> seq 0 tb) as Hstarts.
  { unfold starts, tb. rewrite (range_loop_closed batch_size Hpos) by lia.
    by rewrite Nat.sub_0_r. }
  destruct (loop_spec w batch_size (df_len df1) tb df starts st1) as (Hc & _).
  pose proof (loop_batch_lines w batch_size (df_len df1) tb df starts st1) as Hb.
  simpl in Hc, Hb.
  assert (ImportSimple.calls (ImportSimple.final (ImportSimple.main_with batch_size w)) =
          ImportSimple.payload batch_size df <$> starts) as Hcalls.
  { unfold ImportSimple.main_with. rewrite Hclient, Hfile. cbv zeta.
    fold df1. rewrite Hname.
    rewrite decide_False by lia. unfold py_range. rewrite decide_False by lia.
    exact Hc. }
  assert (batch_lines (ImportSimple.stdout (ImportSimple.final
            (ImportSimple.main_with batch_size w))) =
          (λ i, (i / batch_size + 1, tb, length (ImportSimple.payload batch_size df i)))
            <$> starts) as Hlines.
  { unfold ImportSimple.main_with. rewrite Hclient, Hfile. cbv zeta.
    fold df1. rewrite Hname.
    rewrite decide_False by lia. unfold py_range. rewrite decide_False by lia.
    simpl. unfold batch_lines at 1.
    rewrite omap_app. simpl. rewrite app_nil_r. exact Hb. }
  rewrite Hcalls, Hlines, Hstarts. split.
  - by rewrite !length_fmap, length_seq.
  - apply list_eq. intros k.
    rewrite list_lookup_imap, !list_lookup_fmap.
    destruct (seq 0 tb !! k) as [j|] eqn:Hj; [|done].
    apply lookup_seq in Hj as [-> _]. simpl.
    by rewrite Nat.div_mul, Nat.add_1_r by lia.
Qed.

Lemma X4_batch_numbering_witness :
  0 < 1 ∧
  ImportSimple.client_ok Samples.world_third_fails = true ∧
  ImportSimple.parquet Samples.world_third_fails = Some Samples.df_five ∧
  is_Some (ImportSimple.try_clean_values (ImportSimple.clean_columns Samples.df_five)) ∧
  length (ImportSimple.calls (ImportSimple.final
            (ImportSimple.main_with 1 Samples.world_third_fails))) = 5 ∧
  batch_lines (ImportSimple.stdout (ImportSimple.final
                 (ImportSimple.main_with 1 Samples.world_third_fails))) =
    [(1, 5, 1); (2, 5, 1); (3, 5, 1); (4, 5, 1); (5, 5, 1)].
Proof.
  assert (is_Some (ImportSimple.try_clean_values
                     (ImportSimple.clean_columns Samples.df_five))) as Hname
    by (eexists; reflexivity).
  split; [lia|]. split; [reflexivity|]. split; [reflexivity|]. split; [exact Hname|].
  destruct (X4_batch_numbering 1 Samples.world_third_fails Samples.df_five)
    as [Hlen Hlines]; [lia | reflexivity | reflexivity | exact Hname |].
  split; [exact Hlen|]. rewrite Hlines. reflexivity.
Defined.

(** X5.  The counters of a run stay within bounds: the imported records and
    the rows without record together never exceed the rows of the frame, so
    the progress never passes 100 percent; the errors never exceed the number
    of batches. *)
Theorem X5_counter_bounds (batch_size : nat) (w : ImportSimple.World) (df0 : DataFrame) :
  0 < batch_size →
  ImportSimple.client_ok w = true →
  ImportSimple.parquet w = Some df0 →
  let df := ImportSimple.clean_columns df0 in
  let r := ImportSimple.main_with batch_size w in
  ImportSimple.imported (ImportSimple.final r) + length (skipped (columns df) (data df))
    ≤ df_len df ∧
  ImportSimple.errors (ImportSimple.final r) ≤ (df_len df + batch_size - 1) / batch_size.
Proof.
  intros Hpos Hclient Hfile df r.
  destruct (ImportSimple.try_clean_values (ImportSimple.clean_columns df0))
    as [df1|] eqn:Hname.
  2:{ unfold r. rewrite (main_raises batch_size w df0) by done. simpl.
      split; [|lia]. unfold skipped, df_len. apply length_filter. }
  assert (is_Some (ImportSimple.try_clean_values (ImportSimple.clean_columns df0)))
    as Hsome by (rewrite Hname; by eexists).
  destruct (main_spec batch_size w df0 Hpos Hclient Hfile Hsome)
    as (_ & Hcalls & Herr & Himp & _).
  pose proof (main_records batch_size w df0 Hpos Hclient Hfile Hsome) as Hrec.
  destruct (main_calls_slices batch_size w df0 Hpos Hclient Hfile Hsome) as [Hcount _].
  cbv zeta in Hrec. fold df in Hrec. fold df in Hcount. unfold r. split.
  - rewrite Himp, <- Hcalls.
    pose proof (accepted_le w 0 (ImportSimple.calls (ImportSimple.final
                  (ImportSimple.main_with batch_size w)))) as Hle.
    rewrite Hrec in Hle.
    pose proof (sent_skipped_length (columns df) (data df)). unfold df_len. lia.
  - rewrite Herr, <- Hcalls, <- Hcount. apply failures_le.
Qed.

Lemma X5_counter_bounds_witness :
  0 < 1 ∧
  ImportSimple.client_ok Samples.world_third_fails = true ∧
  ImportSimple.parquet Samples.world_third_fails = Some Samples.df_five ∧
  ImportSimple.errors (ImportSimple.final (ImportSimple.main_with 1 Samples.world_third_fails))
    ≤ (df_len (ImportSimple.clean_columns Samples.df_five) + 1 - 1) / 1.
Proof.
  split; [lia|]. split; [reflexivity|]. split; [reflexivity|].
  apply (X5_counter_bounds 1 Samples.world_third_fails Samples.df_five);
    [lia | reflexivity | reflexivity].
Defined.


(** A name column of numbers: the split of the names raises. *)
Example numeric_names_raise :
  let w := Samples.world (mkDF ["organisationsidentitet"; "organisationsnamn"]
                               [[VStr "1"; VInt 5]]) in
  ImportSimple.exit_code (ImportSimple.main w) = 1 ∧
  ImportSimple.calls (ImportSimple.final (ImportSimple.main w)) = [] ∧
  ParquetToCsv.main (ImportSimple.parquet w) = None.
Proof. cbv zeta. split_and!; reflexivity. Qed.


(* ===================================================================== *)
(** ** Outcome of [import-csv-direct.py] *)
(* ===================================================================== *)



(* ===================================================================== *)
(** ** The CSV written by [parquet-to-csv.py] *)
(* ===================================================================== *)

Section MapAtFacts.
Variables (label : string) (f : value → value).


Lemma map_at_lookup (cols : list string) (row : list value) (j : nat) c v :
  cols !! j = Some c → row !! j = Some v →
  Pandas.map_at label f cols row !! j = Some (if decide (c = label) then f v else v).
Proof.
  revert row j. induction cols as [|c0 cols IH]; intros [|v0 row] [|j]; simpl;
    try done.
  - by intros [= ->] [= ->].
  - apply IH.
Qed.

End MapAtFacts.

Lemma foldl_insert_notin (cols : list string) (row : list value)
    (d : gmap string value) (k : string) :
  k ∉ cols → foldl (λ d kv, <[kv.1 := kv.2]> d) d (zip cols row) !! k = d !! k.
Proof.
  revert row d. induction cols as [|c cols IH]; intros row d Hk; [done|].
  destruct row as [|v row]; [done|]. simpl.
  apply not_elem_of_cons in Hk as [Hne Hk].
  rewrite IH by done. by rewrite lookup_insert_ne.
Qed.

(** With distinct labels the entry of a label is the cell under it. *)
Lemma to_dict_lookup_nodup (cols : list string) (row : list value) (j : nat) c v :
  NoDup cols → cols !! j = Some c → row !! j = Some v →
  Pandas.to_dict cols row !! c = Some v.
Proof.
  unfold Pandas.to_dict. generalize (∅ : gmap string value).
  revert row j. induction cols as [|c0 cols IH]; intros [|v0 row] [|j] d Hnd;
    simpl; try done; apply NoDup_cons in Hnd as [Hnot Hnd].
  - intros [= ->] [= ->]. rewrite foldl_insert_notin by done.
    by rewrite lookup_insert_eq.
  - by apply IH.
Qed.

Lemma select_fmap (keep : string → bool) (g : value → value)
    (cols : list string) (row : list value) :
  Pandas.select keep cols (g <$> row) = g <$> Pandas.select keep cols row.
Proof.
  revert row. induction cols as [|c cols IH]; intros [|v row]; simpl; try done.
  destruct (keep c); simpl; by rewrite IH.
Qed.

(** The script, in terms of the column cleaning of the upsert script. *)
Lemma parquet_to_csv_main (df : DataFrame) :
  ParquetToCsv.main (Some df) =
  let df1 := ImportSimple.clean_columns df in
  if ParquetToCsv.name_raises df1 then None
  else Some (ParquetToCsv.to_csv ParquetToCsv.NA_REP
               (if decide (ParquetToCsv.NAME_COLUMN ∈ columns df1)
                then Pandas.assign_split_first ParquetToCsv.NAME_COLUMN DELIM df1
                else df1)).
Proof. reflexivity. Qed.



(** X10.  The two loaders agree on the cells that are strings or absent.
    For a frame with distinct column labels that the CSV conversion
    accepts, and a row with one cell per column, the field that the CSV
    conversion writes for such a cell is the text of the value that the
    upsert script sends under that column, and the null token when the
    upsert script sends nothing under it. *)
Theorem X10_loaders_agree (df : DataFrame) (i j : nat) (row : list value) (c : string)
    (v : value) (out : list (list string)) :
  let df1 := ImportSimple.clean_columns df in
  NoDup (columns df1) →
  data df1 !! i = Some row →
  length row = length (columns df1) →
  columns df1 !! j = Some c →
  row !! j = Some v →
  Pandas.is_str v || isna v = true →
  ParquetToCsv.main (Some df) = Some out →
  ∃ line,
    out !! S i = Some line ∧
    line !! j = Some (match record_of (columns df1) row !! c with
                      | Some v => ParquetToCsv.py_str v
                      | None => ParquetToCsv.NA_REP
                      end).
Proof.
  intros df1 Hnd Hrow Hlen Hc Hv Hcell Hout.
  pose proof (to_dict_lookup_nodup _ _ _ _ _ Hnd Hc Hv) as Hdict.
  assert (record_of (columns df1) row !! c =
          let v' := if decide (ImportSimple.NAME_COLUMN = c)
                    then Pandas.str_split_first DELIM (if isna v then VNone else v)
                    else v in
          if isna v' then None else Some v') as Hrec.
  { unfold record_of. rewrite build_record_lookup, normalize_dict_lookup, Hdict.
    simpl. case_decide; simpl; rewrite kept_isna.
    - by destruct (isna (Pandas.str_split_first DELIM _)).
    - by destruct v. }
  rewrite Hrec. rewrite parquet_to_csv_main in Hout. fold df1 in Hout. cbv zeta in Hout.
  destruct (ParquetToCsv.name_raises df1); [done|]. injection Hout as <-. cbv zeta.
  unfold ParquetToCsv.to_csv.
  assert (∀ (x : list string) l, (x :: l) !! S i = l !! i) as Hcons by done.
  destruct (decide (ParquetToCsv.NAME_COLUMN ∈ columns df1)) as [Hname|Hname].
  - eexists. rewrite Hcons. unfold Pandas.assign_split_first. cbn [data].
    rewrite !list_lookup_fmap, Hrow. split; [reflexivity|].
    rewrite list_lookup_fmap, (map_at_lookup _ _ _ _ _ _ _ Hc Hv).
    cbn [fmap option_fmap option_map].
    destruct (decide (c = ParquetToCsv.NAME_COLUMN)) as [->|Hne].
    + rewrite decide_True by done. unfold ParquetToCsv.csv_cell.
      destruct v as [| |s| | |]; try reflexivity.
      destruct (split_first_string s) as (name & Hsplit & _).
      cbn [isna]. by rewrite Hsplit.
    + rewrite decide_False by (intros <-; done).
      unfold ParquetToCsv.csv_cell. by destruct (isna v).
  - eexists. rewrite Hcons, list_lookup_fmap, Hrow. split; [reflexivity|].
    rewrite list_lookup_fmap, Hv. cbn [fmap option_fmap option_map].
    rewrite decide_False.
    + unfold ParquetToCsv.csv_cell. by destruct (isna v).
    + intros <-. apply Hname. by eapply list_elem_of_lookup_2.
Qed.

Lemma X10_loaders_agree_witness :
  NoDup (columns (ImportSimple.clean_columns Samples.df_acme)) ∧
  data (ImportSimple.clean_columns Samples.df_acme) !! 0
    = Some [VStr "5560000001"; VStr "Acme AB$1"] ∧
  length [VStr "5560000001"; VStr "Acme AB$1"]
    = length (columns (ImportSimple.clean_columns Samples.df_acme)) ∧
  columns (ImportSimple.clean_columns Samples.df_acme) !! 1 = Some "organisationsnamn" ∧
  [VStr "5560000001"; VStr "Acme AB$1"] !! 1 = Some (VStr "Acme AB$1") ∧
  Pandas.is_str (VStr "Acme AB$1") || isna (VStr "Acme AB$1") = true ∧
  ParquetToCsv.main (Some Samples.df_acme) =
    Some [["organisationsidentitet"; "organisationsnamn"]; ["5560000001"; "Acme AB"]] ∧
  ∃ line,
    [["organisationsidentitet"; "organisationsnamn"]; ["5560000001"; "Acme AB"]] !! 1
      = Some line ∧
    line !! 1 = Some (match record_of (columns (ImportSimple.clean_columns Samples.df_acme))
                              [VStr "5560000001"; VStr "Acme AB$1"] !! "organisationsnamn" with
                      | Some v => ParquetToCsv.py_str v
                      | None => ParquetToCsv.NA_REP
                      end).
Proof.
  assert (NoDup (columns (ImportSimple.clean_columns Samples.df_acme))) as Hnd.
  { change (NoDup ["organisationsidentitet"; "organisationsnamn"]).
    apply NoDup_cons. split; [|apply NoDup_singleton].
    intros Hin. apply list_elem_of_singleton in Hin. discriminate Hin. }
  split; [exact Hnd|]. split; [reflexivity|]. split; [reflexivity|].
  split; [reflexivity|]. split; [reflexivity|]. split; [reflexivity|].
  split; [reflexivity|].
  apply (X10_loaders_agree Samples.df_acme 0 1 [VStr "5560000001"; VStr "Acme AB$1"]
           "organisationsnamn" (VStr "Acme AB$1") _ Hnd); reflexivity.
Defined.

(* ===================================================================== *)
(** ** [str.split] and the cleaning of values *)
(* ===================================================================== *)

Section SplitFacts.
Variable sep : ascii.

Lemma str_join_cons (piece : string) (pieces : list string) :
  pieces ≠ [] →
  str_join sep (piece :: pieces) = (piece ++ String sep (str_join sep pieces))%string.
Proof. by destruct pieces. Qed.

(** X11.  Splitting a string at a separator loses nothing: joining the pieces
    with the separator gives the string back; no piece holds the separator;
    and there is one piece more than there are separators in the string. *)
Theorem X11_split_join (s : string) :
  str_join sep (Str.split sep s) = s ∧
  Forall (λ piece, Str.contains sep piece = false) (Str.split sep s) ∧
  length (Str.split sep s) = S (str_count sep s).
Proof.
  induction s as [|c s (Hjoin & Hpieces & Hlen)]; simpl.
  - split; [done|]. split; [|done]. by apply Forall_cons.
  - case_decide as Hc.
    + subst c. rewrite str_join_cons by apply split_nonempty.
      rewrite Hjoin. split; [done|]. split; [by apply Forall_cons|].
      cbn [length]. by rewrite Hlen.
    + pose proof (split_nonempty sep s) as Hne.
      destruct (Str.split sep s) as [|piece pieces]; [done|].
      apply Forall_cons in Hpieces as [Hpiece Hpieces]. simpl in Hlen.
      split_and!.
      * destruct pieces as [|piece' pieces]; simpl in *; by rewrite <- Hjoin.
      * apply Forall_cons. split; [|done]. simpl. by rewrite decide_False.
      * simpl. lia.
Qed.

End SplitFacts.

(** The cleaning of values, done twice, gives the records of the cleaning
    done once. *)
Lemma record_of_clean_row (cols : list string) (row : list value) :
  record_of cols (clean_row cols row) = record_of cols row.
Proof.
  unfold record_of. rewrite to_dict_clean_row.
  apply map_eq. intros k.
  rewrite !build_record_lookup, !normalize_dict_lookup.
  destruct (Pandas.to_dict cols row !! k) as [v|]; [|by case_decide].
  case_decide; [|by destruct v].
  destruct v as [| |s| | |]; try reflexivity.
  cbn [fmap option_fmap option_map isna].
  destruct (split_first_string s) as (name & Hs & Hno & _). rewrite Hs.
  cbn [isna].
  destruct (split_first_string name) as (name' & Hname & _ & Hsame).
  rewrite Hno in Hsame. subst name'. by rewrite Hname.
Qed.

(** X12.  Cleaning the values of a frame a second time does not change what
    is sent: the second cleaning may turn a NaN that the first one made into
    None, but the records built from the rows are the same. *)
Theorem X12_clean_values_stable (df : DataFrame) :
  let once := ImportSimple.clean_values df in
  let twice := ImportSimple.clean_values once in
  ImportSimple.build_records (columns twice) (data twice) =
  ImportSimple.build_records (columns once) (data once).
Proof.
  cbv zeta. rewrite !clean_values_columns, !clean_values_data.
  rewrite clean_values_columns, !build_records_clean.
  unfold sent. rewrite <- list_fmap_compose. f_equal.
  apply list_fmap_ext. intros _ row _. simpl. apply record_of_clean_row.
Qed.

(* ===================================================================== *)
(** ** What the calls of [import-simple.py] carry and depend on *)
(* ===================================================================== *)

Lemma to_dict_lookup_elem (cols : list string) (row : list value) (k : string) :
  is_Some (Pandas.to_dict cols row !! k) → k ∈ cols.
Proof.
  intros Hk. destruct (decide (k ∈ cols)) as [|Hnot]; [done|].
  rewrite (to_dict_lookup_None cols row k Hnot) in Hk. by destruct Hk.
Qed.

Lemma record_of_lookup_elem (cols : list string) (row : list value) (k : string) :
  is_Some (record_of cols row !! k) → k ∈ cols.
Proof.
  intros [v Hv]. unfold record_of in Hv.
  apply build_record_Some in Hv as [Hv _].
  rewrite normalize_dict_lookup in Hv. apply to_dict_lookup_elem with (row := row).
  destruct (Pandas.to_dict cols row !! k); [done|]. by case_decide.
Qed.

(** X13.  Every field name of every record of every call is a column label
    of the cleaned frame: it is lower-case and it is never the index
    column. *)
Theorem X13_record_keys (batch_size : nat) (w : ImportSimple.World) (df0 : DataFrame)
    (c : list record) (r : record) (k : string) :
  ImportSimple.parquet w = Some df0 →
  c ∈ ImportSimple.calls (ImportSimple.final (ImportSimple.main_with batch_size w)) →
  r ∈ c →
  is_Some (r !! k) →
  k ∈ columns (ImportSimple.clean_columns df0) ∧
  k ≠ ImportSimple.INDEX_COLUMN ∧
  Str.lower k = k.
Proof.
  intros Hfile Hc Hr Hk.
  assert (k ∈ columns (ImportSimple.clean_columns df0)) as Hin.
  { destruct (main_cases batch_size w)
      as [[out Hout]|(df0' & Hpos & Hclient & Hfile' & Hname)].
    { rewrite Hout in Hc. by apply elem_of_nil in Hc. }
    rewrite Hfile in Hfile'. injection Hfile' as <-.
    rewrite (main_calls_batches batch_size w df0) in Hc by done.
    apply list_elem_of_fmap in Hc as (b & -> & _).
    apply list_elem_of_filter in Hr as [_ Hr].
    apply list_elem_of_fmap in Hr as (row & -> & _).
    by eapply record_of_lookup_elem. }
  split; [done|]. rewrite clean_columns_columns in Hin.
  apply list_elem_of_filter in Hin as [Hne Hin]. split; [done|].
  apply list_elem_of_fmap in Hin as (k0 & -> & _). apply lower_idemp.
Qed.

Lemma X13_record_keys_witness :
  ImportSimple.parquet (Samples.world Samples.df_acme) = Some Samples.df_acme ∧
  "organisationsnamn" ≠ ImportSimple.INDEX_COLUMN ∧
  Str.lower "organisationsnamn" = "organisationsnamn".
Proof.
  split; [reflexivity|].
  apply (X13_record_keys ImportSimple.BATCH_SIZE (Samples.world Samples.df_acme)
           Samples.df_acme
           [ {[ "organisationsidentitet" := VStr "5560000001";
                "organisationsnamn" := VStr "Acme AB" ]} ]
           {[ "organisationsidentitet" := VStr "5560000001";
              "organisationsnamn" := VStr "Acme AB" ]}
           "organisationsnamn").
  - reflexivity.
  - apply list_elem_of_singleton. reflexivity.
  - apply list_elem_of_singleton. reflexivity.
  - eexists. reflexivity.
Defined.

(** X14.  The calls of a run depend on the frame and the batch size only:
    two runs that both get their client and read the same file issue the
    same calls with the same records, whatever their tables hold and whichever
    of their calls fail. *)
Theorem X14_calls_independent (batch_size : nat) (w w' : ImportSimple.World) :
  ImportSimple.client_ok w = ImportSimple.client_ok w' →
  ImportSimple.parquet w = ImportSimple.parquet w' →
  ImportSimple.calls (ImportSimple.final (ImportSimple.main_with batch_size w)) =
  ImportSimple.calls (ImportSimple.final (ImportSimple.main_with batch_size w')).
Proof.
  intros Hclient Hfile.
  destruct (ImportSimple.client_ok w) eqn:Hc.
  2:{ unfold ImportSimple.main_with. by rewrite Hc, <- Hclient. }
  destruct (ImportSimple.parquet w) as [df0|] eqn:Hf.
  2:{ unfold ImportSimple.main_with. by rewrite Hc, Hf, <- Hclient, <- Hfile. }
  destruct (ImportSimple.try_clean_values (ImportSimple.clean_columns df0))
    as [df|] eqn:Hname.
  2:{ by rewrite (main_raises batch_size w df0), (main_raises batch_size w' df0). }
  destruct (decide (batch_size = 0)) as [->|Hpos].
  { unfold ImportSimple.main_with. rewrite Hc, Hf, <- Hclient, <- Hfile. cbv zeta.
    by rewrite Hname. }
  assert (is_Some (ImportSimple.try_clean_values (ImportSimple.clean_columns df0)))
    as Hsome by (rewrite Hname; by eexists).
  rewrite (main_calls_batches batch_size w df0) by (done || lia).
  by rewrite (main_calls_batches batch_size w' df0) by (done || lia).
Qed.

Lemma X14_calls_independent_witness :
  ImportSimple.client_ok Samples.world_third_fails
    = ImportSimple.client_ok (Samples.world Samples.df_five) ∧
  ImportSimple.parquet Samples.world_third_fails
    = ImportSimple.parquet (Samples.world Samples.df_five) ∧
  ImportSimple.calls (ImportSimple.final (ImportSimple.main_with 1 Samples.world_third_fails)) =
  ImportSimple.calls (ImportSimple.final
    (ImportSimple.main_with 1 (Samples.world Samples.df_five))).
Proof.
  split; [reflexivity|]. split; [reflexivity|].
  apply (X14_calls_independent 1 Samples.world_third_fails (Samples.world Samples.df_five));
    reflexivity.
Defined.

(* ===================================================================== *)
(** ** The extraction scripts *)
(* ===================================================================== *)

Section FinancialFacts.
Import ExtractFinancials.
Variable strip : string → string.

Lemma first_value_None (matches : list string) :
  first_value strip matches = None ↔
  Forall (λ m, usable (strip m) = false) matches.
Proof.
  induction matches as [|m matches IH]; simpl; [done|].
  rewrite Forall_cons. destruct (usable (strip m)); [|by rewrite IH; intuition].
  split; [done | by intros [? _]].
Qed.

Lemma first_value_Some (matches : list string) (value : string) :
  first_value strip matches = Some value ↔
  ∃ pre m post,
    matches = pre ++ m :: post ∧
    Forall (λ m', usable (strip m') = false) pre ∧
    value = strip m ∧ usable value = true.
Proof.
  induction matches as [|m matches IH]; simpl.
  - split; [done|]. intros (pre & m & post & H & _). by destruct pre.
  - destruct (usable (strip m)) eqn:Hm.
    + split.
      * intros [= <-]. by exists [], m, matches.
      * intros ([|m0 pre] & m' & post & Heq & Hpre & -> & Hok);
          simpl in Heq; injection Heq as -> ->; [done|].
        apply Forall_cons in Hpre as [Hbad _]. congruence.
    + rewrite IH. split.
      * intros (pre & m' & post & -> & Hpre & -> & Hok).
        exists (m :: pre), m', post. split; [done|]. split; [|done].
        by apply Forall_cons.
      * intros ([|m0 pre] & m' & post & Heq & Hpre & -> & Hok);
          simpl in Heq; injection Heq as -> ->; [congruence|].
        apply Forall_cons in Hpre as [_ Hpre]. by exists pre, m', post.
Qed.

(** X15.  For one key figure, the financial report prints the
    not-available line exactly when the pattern matched nothing; it prints
    nothing at all exactly when the pattern matched and every match, once
    stripped, is empty or a dash; otherwise it prints the first match that,
    once stripped, is neither, and that value alone. *)
Theorem X15_financial_report (namn : string) (matches : list string) :
  (report strip namn matches = [PMissing namn] ↔ matches = []) ∧
  (report strip namn matches = [] ↔
   matches ≠ [] ∧ Forall (λ m, usable (strip m) = false) matches) ∧
  (∀ value,
     report strip namn matches = [PValue namn value] ↔
     ∃ pre m post,
       matches = pre ++ m :: post ∧
       Forall (λ m', usable (strip m') = false) pre ∧
       value = strip m ∧
       value ≠ "" ∧ value ≠ "&#8211;" ∧ value ≠ "-").
Proof.
  assert (∀ value, usable value = true ↔
            value ≠ "" ∧ value ≠ "&#8211;" ∧ value ≠ "-") as Husable.
  { intros value. unfold usable. rewrite !andb_true_iff, !bool_decide_eq_true.
    tauto. }
  destruct matches as [|m0 matches].
  { split; [done|]. split; [split; [done | by intros [? _]]|].
    intros value. split; [done|]. intros (pre & m & post & H & _). by destruct pre. }
  unfold report.
  destruct (first_value strip (m0 :: matches)) as [v|] eqn:Hfirst.
  - split; [done|]. split.
    + split; [done|]. intros [_ Hall]. apply first_value_None in Hall. congruence.
    + intros value. split.
      * intros [= <-]. apply first_value_Some in Hfirst
          as (pre & m & post & Heq & Hpre & Hv & Hok).
        exists pre, m, post. by rewrite <- Husable.
      * intros (pre & m & post & Heq & Hpre & Hv & Hok).
        assert (first_value strip (m0 :: matches) = Some value) as Hsome.
        { apply first_value_Some. exists pre, m, post. by rewrite Husable. }
        congruence.
  - split; [done|]. split.
    + split; [|done]. intros _. split; [done|]. by apply first_value_None.
    + intros value. split; [done|].
      intros (pre & m & post & Heq & Hpre & Hv & Hok).
      assert (first_value strip (m0 :: matches) = Some value) as Hsome.
      { apply first_value_Some. exists pre, m, post. by rewrite Husable. }
      congruence.
Qed.

End FinancialFacts.

Lemma X15_financial_report_witness :
  ExtractFinancials.report (λ s, s) "Soliditet" ["-"; "&#8211;"; "42"] =
    [ExtractFinancials.PValue "Soliditet" "42"] ∧
  ExtractFinancials.report (λ s, s) "Soliditet" ["-"; "&#8211;"] = [].
Proof.
  split.
  - apply (X15_financial_report (λ s, s) "Soliditet" ["-"; "&#8211;"; "42"]).
    exists ["-"; "&#8211;"], "42", []. split; [reflexivity|].
    split; [repeat (apply Forall_cons; split; [reflexivity|]); by apply Forall_nil|].
    split; [reflexivity|]. split_and!; discriminate.
  - apply (X15_financial_report (λ s, s) "Soliditet" ["-"; "&#8211;"]).
    split; [discriminate|].
    repeat (apply Forall_cons; split; [reflexivity|]). by apply Forall_nil.
Defined.

Section BoardFacts.
Import ExtractBoard.
Variable strip : string → string.
Variables fornamn efternamn roller : list string.

(** X16.  The board listing never fails on an index: it lists as many
    persons as the shortest of the three match lists has entries, numbered
    from 1, the i-th of them made of the i-th first name, last name and role;
    what the longer lists hold beyond that is left out. *)
Theorem X16_board_listing (datum ort : option string) :
  ∃ persons,
    main strip fornamn efternamn roller datum ort =
      Some (PHeading :: concat persons
              ++ (match datum with Some d => [PDate (strip d)] | None => [] end)
              ++ (match ort with Some o => [PPlace (strip o)] | None => [] end)) ∧
    length persons = length fornamn `min` (length efternamn `min` length roller) ∧
    ∀ i f e r,
      fornamn !! i = Some f → efternamn !! i = Some e → roller !! i = Some r →
      persons !! i = Some [PPerson (S i) (strip f) (strip e); PRole (strip r); PBlank].
Proof.
  unfold main.
  set (n := length fornamn `min` (length efternamn `min` length roller)).
  assert (is_Some (mapM (person strip fornamn efternamn roller) (seq 0 n))) as [persons Hp].
  { apply mapM_is_Some, Forall_forall. intros i Hi. simpl.
    apply elem_of_seq in Hi as [_ Hi]. unfold person.
    destruct (lookup_lt_is_Some_2 fornamn i) as [f ->]; [lia|].
    destruct (lookup_lt_is_Some_2 efternamn i) as [e ->]; [lia|].
    destruct (lookup_lt_is_Some_2 roller i) as [r ->]; [lia|]. by eexists. }
  exists persons. rewrite Hp. simpl. split; [done|].
  apply mapM_Some in Hp.
  split; [by rewrite <- (Forall2_length _ _ _ Hp), length_seq|].
  intros i f e r Hf He Hr.
  assert (seq 0 n !! i = Some i) as Hi.
  { apply lookup_seq. split; [done|].
    apply lookup_lt_Some in Hf, He, Hr. lia. }
  destruct (Forall2_lookup_l _ _ _ _ _ Hp Hi) as (p & Hpi & Hperson).
  rewrite Hpi. unfold person in Hperson. rewrite Hf, He, Hr in Hperson.
  simpl in Hperson. rewrite Nat.add_1_r in Hperson. done.
Qed.

End BoardFacts.

Lemma X16_board_listing_witness :
  ["Anna"; "Bo"] !! 1 = Some "Bo" ∧
  ["Ek"; "Berg"; "Lind"] !! 1 = Some "Berg" ∧
  ["Ordforande"; "Ledamot"] !! 1 = Some "Ledamot" ∧
  ∃ persons,
    ExtractBoard.main (λ s, s) ["Anna"; "Bo"] ["Ek"; "Berg"; "Lind"]
      ["Ordforande"; "Ledamot"] None None = Some (ExtractBoard.PHeading :: concat persons ++ [] ++ []) ∧
    length persons = 2 ∧
    persons !! 1 = Some [ExtractBoard.PPerson 2 "Bo" "Berg"; ExtractBoard.PRole "Ledamot";
                         ExtractBoard.PBlank].
Proof.
  split; [reflexivity|]. split; [reflexivity|]. split; [reflexivity|].
  destruct (X16_board_listing (λ s, s) ["Anna"; "Bo"] ["Ek"; "Berg"; "Lind"]
              ["Ordforande"; "Ledamot"] None None) as (persons & Hmain & Hlen & Hat).
  exists persons. split; [exact Hmain|]. split; [exact Hlen|].
  apply (Hat 1 "Bo" "Berg" "Ledamot"); reflexivity.
Defined.
